(** * The relay hub of [socketio-cloud-server.js]

    A shallow embedding of the stateful core of [EnhancedCloudServer]: the
    gateway registry ([this.gateways]), the stream tracker
    ([this.rtmpStreams]), the socket handlers of [setupSocketHandlers], the
    media-server handlers of [setupRTMPServer] and [broadcastToGateways].

    Handlers are computations in a small state-and-exception monad over a
    [World]: the two maps of the server object, the chronological trace of
    what the handler sent or logged, and the number of clock reads so far.
    The clock and the state of the connections are outside the program;
    they enter as the two oracles of section [Server]. *)

From Stdlib Require Import Ascii ZArith Lia.
From stdpp Require Import base list strings pretty.

Set Warnings "-register-all".

(** ** JavaScript values

    The payload of a socket event is whatever the peer sent: a value
    decoded from JSON, so no value is a function.  Numbers are the
    integer-valued ones.  A string is kept in UTF-8, a code point above
    U+FFFF in four bytes and a surrogate that stands alone in three;
    [code_units] below gives its UTF-16 code units. *)

Inductive jsval : Type :=
| JUndefined
| JNull
| JBool (b : bool)
| JNum (n : Z)
| JStr (s : string)
| JArr (items : list jsval)
| JObj (props : list (string * jsval)).

(** ToBoolean: [undefined], [null], [false], [0] and the empty string are
    falsy, every object and array is truthy. *)
Definition truthy (v : jsval) : bool :=
  match v with
  | JUndefined | JNull => false
  | JBool b => b
  | JNum n => negb (n =? 0)%Z
  | JStr s => negb (bool_decide (s = ""))
  | JArr _ | JObj _ => true
  end.

(** [a || b] *)
Definition js_or (a b : jsval) : jsval := if truthy a then a else b.

(** [v !== undefined] is [negb (is_undefined v)]. *)
Definition is_undefined (v : jsval) : bool :=
  match v with JUndefined => true | _ => false end.

Definition nullish (v : jsval) : bool :=
  match v with JUndefined | JNull => true | _ => false end.

(** ** Insertion-ordered maps with string keys

    A JavaScript [Map] keyed by strings, and the property table of a plain
    object: [set] on a present key replaces the value where it stands, on an
    absent key it appends; iteration follows the list.  A [Map] holds each
    key once ([wf]); every operation below keeps that. *)

Module JsMap.

Abbreviation t V := (list (string * V)) (only parsing).

Fixpoint get {V} (k : string) (m : t V) : option V :=
  match m with
  | [] => None
  | (k', v) :: m' => if decide (k' = k) then Some v else get k m'
  end.

Definition has {V} (k : string) (m : t V) : bool :=
  match get k m with Some _ => true | None => false end.

Fixpoint set {V} (k : string) (v : V) (m : t V) : t V :=
  match m with
  | [] => [(k, v)]
  | (k', v') :: m' =>
      if decide (k' = k) then (k, v) :: m' else (k', v') :: set k v m'
  end.

Definition delete {V} (k : string) (m : t V) : t V :=
  filter (λ p, p.1 ≠ k) m.

Definition size {V} (m : t V) : nat := length m.

Definition keys {V} (m : t V) : list string := m.*1.

Definition values {V} (m : t V) : list V := m.*2.

(** Assignment to a field of the object stored under [k], through the
    reference [get] returned: the entry changes where it stands. *)
Fixpoint mutate {V} (f : V → V) (k : string) (m : t V) : t V :=
  match m with
  | [] => []
  | (k', v) :: m' =>
      if decide (k' = k) then (k', f v) :: m' else (k', v) :: mutate f k m'
  end.

Definition wf {V} (m : t V) : Prop := NoDup (keys m).

End JsMap.

(** ** Property reads and object spread *)

(** [v.name] for a [v] that is neither [undefined] nor [null], and for the
    names this program reads ([siteName], [deviceCount], [message],
    [command], [action]): an own property of an object, and [undefined] on
    every other value (no built-in prototype, string or array carries one
    of these names). *)
Definition lookup_prop (v : jsval) (name : string) : jsval :=
  match v with
  | JObj props => default JUndefined (JsMap.get name props)
  | _ => JUndefined
  end.

Definition byte_string (bytes : list N) : string :=
  String.string_of_list_ascii (ascii_of_N <$> bytes).

(** The surrogate [u] (0xD800 to 0xDFFF) standing alone, in three bytes. *)
Definition surrogate (u : N) : string :=
  byte_string [N.lor 0xE0 (N.shiftr u 12);
               N.lor 0x80 (N.land (N.shiftr u 6) 0x3F);
               N.lor 0x80 (N.land u 0x3F)].

(** The UTF-16 code units of a string, each as a string of its own: a
    sequence of one, two or three bytes is one unit, a sequence of four
    bytes is the two surrogates of its code point. *)
Fixpoint code_units (bytes : list ascii) : list string :=
  match bytes with
  | [] => []
  | b1 :: rest =>
      let n1 := N_of_ascii b1 in
      if (n1 <? 0xC0)%N then String b1 "" :: code_units rest
      else if (n1 <? 0xE0)%N then
        match rest with
        | b2 :: rest' => String b1 (String b2 "") :: code_units rest'
        | [] => [String b1 ""]
        end
      else if (n1 <? 0xF0)%N then
        match rest with
        | b2 :: b3 :: rest' =>
            String b1 (String b2 (String b3 "")) :: code_units rest'
        | _ => String b1 "" :: code_units rest
        end
      else
        match rest with
        | b2 :: b3 :: b4 :: rest' =>
            let point :=
              N.lor (N.shiftl (N.land n1 0x07) 18)
                (N.lor (N.shiftl (N.land (N_of_ascii b2) 0x3F) 12)
                   (N.lor (N.shiftl (N.land (N_of_ascii b3) 0x3F) 6)
                      (N.land (N_of_ascii b4) 0x3F))) in
            let offset := (point - 0x10000)%N in
            surrogate (0xD800 + N.shiftr offset 10)
            :: surrogate (0xDC00 + N.land offset 0x3FF)
            :: code_units rest'
        | _ => String b1 "" :: code_units rest
        end
  end.

(** The own enumerable properties [{...v}] copies: those of an object, the
    indexed elements of an array, the indexed code units of a string, and
    none for [undefined], [null], booleans and numbers. *)
Definition spread (v : jsval) : list (string * jsval) :=
  match v with
  | JObj props => props
  | JArr items => imap (λ i x, (pretty i, x)) items
  | JStr s =>
      imap (λ i unit, (pretty i, JStr unit))
        (code_units (String.list_ascii_of_string s))
  | _ => []
  end.

(** Whether ToString, as a template literal applies it, returns.  On an
    object it calls [toString] and then [valueOf] when they are functions:
    an own [toString] property of a decoded payload is none, and the
    inherited [valueOf] returns the object, so the conversion throws
    exactly when the object has an own [toString].  An array joins the
    conversions of its elements. *)
Fixpoint converts (v : jsval) : bool :=
  match v with
  | JArr items => forallb converts items
  | JObj props => negb (JsMap.has "toString" props)
  | _ => true
  end.

(** [{...data, timestamp: t, fromCloud: true}] *)
Definition augment (data : jsval) (t : Z) : jsval :=
  JObj (JsMap.set "fromCloud" (JBool true)
          (JsMap.set "timestamp" (JNum t) (spread data))).

(** ** Stream keys: [StreamPath.split('/').pop()] *)

(** [s.split(sep)] for a one-character separator: never an empty array. *)
Fixpoint split (sep : ascii) (s : string) : list string :=
  match s with
  | EmptyString => [EmptyString]
  | String c s' =>
      if decide (c = sep) then EmptyString :: split sep s'
      else match split sep s' with
           | seg :: segs => String c seg :: segs
           | [] => [String c EmptyString]
           end
  end.

(** The value [pop()] returns: the last element, [None] ([undefined]) on an
    empty array. *)
Definition pop (segments : list string) : option string := last segments.

(** [const streamKey = StreamPath.split('/').pop()]; [split] returns at
    least one segment (lemma [pop_split]), so the default is never taken. *)
Definition streamKeyOf (StreamPath : string) : string :=
  default EmptyString (pop (split "/"%char StreamPath)).

(** Whether the character [sep] occurs in [s]. *)
Fixpoint contains (sep : ascii) (s : string) : bool :=
  match s with
  | EmptyString => false
  | String c s' => bool_decide (c = sep) || contains sep s'
  end.

(** ** Records of the two maps *)

Module Gateway.
Record t : Type := mk {
  id : string;
  siteName : jsval;
  connectedAt : Z;
  socket : string;
  deviceCount : jsval;
  lastHeartbeat : Z
}.
Definition with_lastHeartbeat (now : Z) (g : t) : t :=
  mk (id g) (siteName g) (connectedAt g) (socket g) (deviceCount g) now.
Definition with_deviceCount (n : jsval) (g : t) : t :=
  mk (id g) (siteName g) (connectedAt g) (socket g) n (lastHeartbeat g).
End Gateway.

Module Stream.
Record t : Type := mk {
  id : string;
  streamPath : string;
  startTime : Z;
  active : bool
}.
End Stream.

(** ** Worlds, effects and the handler monad *)

Inductive effect : Type :=
| ConsoleLog (text : string) (args : list jsval)
| IoEmit (event : string) (payload : jsval)
| SocketEmit (sock : string) (event : string) (payload : jsval).

(** A TypeError from reading the property [name] of [undefined] or [null],
    and the TypeError of a conversion to string that finds no primitive. *)
Inductive exn : Type :=
| TypeError (name : string)
| ConversionError.

Inductive outcome (A : Type) : Type :=
| Returns (a : A)
| Throws (e : exn).
Arguments Returns {A} a.
Arguments Throws {A} e.

Record World : Type := mkWorld {
  gateways : JsMap.t Gateway.t;
  rtmpStreams : JsMap.t Stream.t;
  trace : list effect;
  ticks : nat
}.

(** [new EnhancedCloudServer()]: both maps empty. *)
Definition init : World := mkWorld [] [] [] 0.

Definition M (A : Type) : Type := World → outcome A * World.

Definition ret {A} (a : A) : M A := λ w, (Returns a, w).

Definition throw {A} (e : exn) : M A := λ w, (Throws e, w).

Definition bind {A B} (m : M A) (k : A → M B) : M B :=
  λ w, match m w with
       | (Returns a, w') => k a w'
       | (Throws e, w') => (Throws e, w')
       end.

Declare Scope js_scope.
Delimit Scope js_scope with js.
Bind Scope js_scope with M.
Notation "x <- m ;; k" := (bind m (λ x, k))
  (at level 100, m at next level, k at level 200, right associativity) : js_scope.
Notation "m ;; k" := (bind m (λ _, k))
  (at level 100, k at level 200, right associativity) : js_scope.

Definition result {A} (m : M A) (w : World) : outcome A := (m w).1.
Definition exec {A} (m : M A) (w : World) : World := (m w).2.

Definition read {A} (f : World → A) : M A := λ w, (Returns (f w), w).

Definition set_gateways (f : JsMap.t Gateway.t → JsMap.t Gateway.t) : M unit :=
  λ w, (Returns tt, mkWorld (f (gateways w)) (rtmpStreams w) (trace w) (ticks w)).

Definition set_rtmpStreams (f : JsMap.t Stream.t → JsMap.t Stream.t) : M unit :=
  λ w, (Returns tt, mkWorld (gateways w) (f (rtmpStreams w)) (trace w) (ticks w)).

Definition emit_effect (e : effect) : M unit :=
  λ w, (Returns tt, mkWorld (gateways w) (rtmpStreams w) (trace w ++ [e]) (ticks w)).

(** [console.log]: the fixed text of the message and the values put into
    it, in order (the text is not rendered; a handler converts a
    substituted value with [interpolate] before it logs). *)
Definition console_log (text : string) (args : list jsval) : M unit :=
  emit_effect (ConsoleLog text args).

(** [this.io.emit(event, payload)]: to every connected socket. *)
Definition io_emit (event : string) (payload : jsval) : M unit :=
  emit_effect (IoEmit event payload).

(** [data.name]: a TypeError on [undefined] and [null]. *)
Definition get_prop (data : jsval) (name : string) : M jsval :=
  if nullish data then throw (TypeError name) else ret (lookup_prop data name).

(** The substitution [${v}] of a template literal: ToString of [v]. *)
Definition interpolate (v : jsval) : M unit :=
  if converts v then ret tt else throw ConversionError.

(** [map.forEach(callback)] where the callback also updates a local
    counter: entries in insertion order; an exception in the callback ends
    the iteration. *)
Fixpoint forEach {V A} (m : JsMap.t V) (callback : V → A → M A) (acc : A) : M A :=
  match m with
  | [] => ret acc
  | (_, v) :: m' => (acc' <- callback v acc ;; forEach m' callback acc')%js
  end.

(** The events of a trace, by kind. *)
Definition sent_to (tr : list effect) : list string :=
  omap (λ e, match e with SocketEmit s _ _ => Some s | _ => None end) tr.

Definition io_events (event : string) (tr : list effect) : list jsval :=
  omap (λ e, match e with
             | IoEmit ev p => if decide (ev = event) then Some p else None
             | _ => None
             end) tr.

(** ** The server

    [clock n] is what the [n]-th read of the clock ([Date.now()],
    [new Date()]) returns; [closed s] says whether the connection of the
    socket [s] is closed. *)

Section Server.

Context (clock : nat → Z) (closed : string → bool).

(** [Date.now()], and [new Date()] as its time value. *)
Definition now : M Z :=
  λ w, (Returns (clock (ticks w)),
        mkWorld (gateways w) (rtmpStreams w) (trace w) (S (ticks w))).

(** [socket.emit(event, payload)] on the connection [sock], for the event
    names the program passes: the transport takes the packet and [emit]
    returns; on a closed connection the packet is discarded.  The trace
    records the packets that went out. *)
Definition socket_emit (sock event : string) (payload : jsval) : M unit :=
  if closed sock then ret tt
  else emit_effect (SocketEmit sock event payload).

(** The placeholder of [data.siteName || ...] in the registration. *)
Definition unnamed_site : string := "未命名工地".

(** *** [setupRTMPServer] *)

Definition prePublish (id StreamPath : string) : M unit :=
  (console_log "📡 RTMP 推流開始:" [JStr ("StreamPath=" +:+ StreamPath)] ;;
   let streamKey := streamKeyOf StreamPath in
   startTime <- now ;;
   set_rtmpStreams (JsMap.set streamKey (Stream.mk id StreamPath startTime true)) ;;
   timestamp <- now ;;
   io_emit "stream-started"
     (JObj [("streamKey", JStr streamKey);
            ("streamPath", JStr StreamPath);
            ("timestamp", JNum timestamp)]))%js.

Definition donePublish (id StreamPath : string) : M unit :=
  (console_log "📡 RTMP 推流結束:" [JStr ("StreamPath=" +:+ StreamPath)] ;;
   let streamKey := streamKeyOf StreamPath in
   set_rtmpStreams (JsMap.delete streamKey) ;;
   timestamp <- now ;;
   io_emit "stream-ended"
     (JObj [("streamKey", JStr streamKey); ("timestamp", JNum timestamp)]))%js.

(** *** [broadcastToGateways] *)

(** The callback of [this.gateways.forEach]: one send, then [count++]. *)
Definition send_to_gateway (event : string) (data : jsval)
    (gateway : Gateway.t) (count : Z) : M Z :=
  (timestamp <- now ;;
   socket_emit (Gateway.socket gateway) event (augment data timestamp) ;;
   ret (count + 1)%Z)%js.

(** The function has no [return]: a call evaluates to [undefined]. *)
Definition broadcastToGateways (event : string) (data : jsval) : M jsval :=
  (registered <- read gateways ;;
   count <- forEach registered (send_to_gateway event data) 0%Z ;;
   console_log "📡 廣播 ${event} 給 ${count} 個閘道器" [JStr event; JNum count] ;;
   ret JUndefined)%js.

(** *** [setupSocketHandlers], for the connection [sock] ([socket.id]) *)

Definition register_gateway (sock : string) (data : jsval) : M unit :=
  (siteName <- get_prop data "siteName" ;;
   connectedAt <- now ;;
   deviceCount <- get_prop data "deviceCount" ;;
   lastHeartbeat <- now ;;
   set_gateways
     (JsMap.set sock
        (Gateway.mk sock (js_or siteName (JStr unnamed_site)) connectedAt sock
           (js_or deviceCount (JNum 0)) lastHeartbeat)) ;;
   logged <- get_prop data "siteName" ;;
   interpolate logged ;;
   console_log "✅ 閘道器註冊: ${data.siteName}" [logged] ;;
   siteName' <- get_prop data "siteName" ;;
   deviceCount' <- get_prop data "deviceCount" ;;
   io_emit "gateway-connected"
     (JObj [("siteName", siteName');
            ("deviceCount", js_or deviceCount' (JNum 0))]))%js.

Definition gateway_response (data : jsval) : M unit :=
  (siteName <- get_prop data "siteName" ;;
   interpolate siteName ;;
   message <- get_prop data "message" ;;
   console_log "📥 收到回應 [${data.siteName}]:" [siteName; message] ;;
   io_emit "gateway-response" data)%js.

Definition cloud_message (data : jsval) : M unit :=
  (message <- get_prop data "message" ;;
   console_log "📤 雲端廣播:" [message] ;;
   broadcastToGateways "cloud-message" data ;;
   ret tt)%js.

Definition request_devices (data : jsval) : M unit :=
  (console_log "📋 查詢設備清單" [] ;;
   broadcastToGateways "request-devices" data ;;
   ret tt)%js.

Definition device_control (data : jsval) : M unit :=
  (command <- get_prop data "command" ;;
   console_log "🎮 設備控制:" [command] ;;
   broadcastToGateways "device-control" data ;;
   ret tt)%js.

Definition stream_control (data : jsval) : M unit :=
  (action <- get_prop data "action" ;;
   console_log "📺 串流控制:" [action] ;;
   broadcastToGateways "stream-control" data ;;
   ret tt)%js.

Definition heartbeat (sock : string) (data : jsval) : M unit :=
  (registered <- read (λ w, JsMap.has sock (gateways w)) ;;
   if registered then
     timestamp <- now ;;
     set_gateways (JsMap.mutate (Gateway.with_lastHeartbeat timestamp) sock) ;;
     deviceCount <- get_prop data "deviceCount" ;;
     if negb (is_undefined deviceCount)
     then set_gateways (JsMap.mutate (Gateway.with_deviceCount deviceCount) sock)
     else ret tt
   else ret tt)%js.

Definition disconnect (sock : string) : M unit :=
  (gateway <- read (λ w, JsMap.get sock (gateways w)) ;;
   match gateway with
   | Some g =>
       interpolate (Gateway.siteName g) ;;
       console_log "❌ 閘道器斷線: ${gateway.siteName}" [Gateway.siteName g] ;;
       io_emit "gateway-disconnected" (JObj [("siteName", Gateway.siteName g)]) ;;
       set_gateways (JsMap.delete sock)
   | None => ret tt
   end)%js.

(** *** Inbound events and runs *)

Inductive Event : Type :=
| RegisterGateway (sock : string) (data : jsval)
| GatewayResponse (sock : string) (data : jsval)
| CloudMessage (sock : string) (data : jsval)
| RequestDevices (sock : string) (data : jsval)
| DeviceControl (sock : string) (data : jsval)
| StreamControl (sock : string) (data : jsval)
| Heartbeat (sock : string) (data : jsval)
| Disconnect (sock : string)
| PrePublish (id StreamPath : string)
| DonePublish (id StreamPath : string).

Definition handle (e : Event) : M unit :=
  match e with
  | RegisterGateway sock data => register_gateway sock data
  | GatewayResponse _ data => gateway_response data
  | CloudMessage _ data => cloud_message data
  | RequestDevices _ data => request_devices data
  | DeviceControl _ data => device_control data
  | StreamControl _ data => stream_control data
  | Heartbeat sock data => heartbeat sock data
  | Disconnect sock => disconnect sock
  | PrePublish id StreamPath => prePublish id StreamPath
  | DonePublish id StreamPath => donePublish id StreamPath
  end.

(** The world after the events of [es], one handler run after the other.
    A handler that throws leaves the world as it stood at the throw, and
    the run goes on with the next event: the program installs no handler
    for uncaught exceptions, so this covers both a host that stops at the
    first throw and one that keeps serving. *)
Definition run (es : list Event) (w : World) : World :=
  foldl (λ w e, exec (handle e) w) w es.

End Server.

(** ** Predicates and sample data used by the statements below *)

(** The entries a map holds under one key. *)
Definition entries_under {V} (k : string) (m : JsMap.t V) : JsMap.t V :=
  filter (λ p, p.1 = k) m.

(** An integer that is at least 0. *)
Definition nonneg_int (v : jsval) : bool :=
  match v with JNum n => (0 <=? n)%Z | _ => false end.

(** The payload supplies no [deviceCount], or a non-negative integer. *)
Definition count_supplied_ok (data : jsval) : bool :=
  is_undefined (lookup_prop data "deviceCount")
  || nonneg_int (lookup_prop data "deviceCount").

(** The same for the two events that carry a [deviceCount]. *)
Definition supplies_counts_ok (e : Event) : bool :=
  match e with
  | RegisterGateway _ data | Heartbeat _ data => count_supplied_ok data
  | _ => true
  end.

(** One message per entry of [m], in the order of the map, the [i]-th
    stamped with the clock read number [t0 + i]. *)
Definition sends (clock : nat → Z) (event : string) (data : jsval) (t0 : nat)
    (m : JsMap.t Gateway.t) : list effect :=
  imap (λ i g, SocketEmit (Gateway.socket g) event (augment data (clock (t0 + i))))
    (JsMap.values m).

(** A computation that leaves the registry as it found it, whether it
    returns or throws. *)
Definition keeps_gateways {A} (m : M A) : Prop :=
  ∀ w, gateways (exec m w) = gateways w.

(** The events whose handlers write [this.gateways]. *)
Definition writes_registry (e : Event) : bool :=
  match e with
  | RegisterGateway _ _ | Heartbeat _ _ | Disconnect _ => true
  | _ => false
  end.

(** What a broadcast sends from the clock read number [t0] on: one
    message per entry of [m] whose connection is open, in the order of the
    map; the entry at position [i] is stamped with the clock read number
    [t0 + i] whether or not its connection is open. *)
Fixpoint deliveries (clock : nat → Z) (closed : string → bool)
    (event : string) (data : jsval) (t0 : nat) (m : JsMap.t Gateway.t) : list effect :=
  match m with
  | [] => []
  | (_, g) :: m' =>
      (if closed (Gateway.socket g) then []
       else [SocketEmit (Gateway.socket g) event (augment data (clock t0))])
      ++ deliveries clock closed event data (S t0) m'
  end.

Module Sample.

Definition clock (n : nat) : Z := (1700000000000 + Z.of_nat n)%Z.

(** Every connection is open. *)
Definition reliable (sock : string) : bool := false.

(** The connection of the socket [gw-A] is closed, every other is open. *)
Definition dead_A (sock : string) : bool := bool_decide (sock = "gw-A").

Definition siteA : jsval :=
  JObj [("siteName", JStr "SiteA"); ("deviceCount", JNum 3)].

Definition siteB : jsval :=
  JObj [("siteName", JStr "SiteB"); ("deviceCount", JNum 1)].

Definition nameless : jsval := JObj [("deviceCount", JNum 2)].

Definition message : jsval := JObj [("message", JStr "hello")].

(** The connection of the socket [gw-B] is closed, every other is open. *)
Definition dead_B (sock : string) : bool := bool_decide (sock = "gw-B").


Definition beat5 : jsval := JObj [("deviceCount", JNum 5)].

Definition minus_one : jsval :=
  JObj [("siteName", JStr "SiteA"); ("deviceCount", JNum (-1))].

(** Two gateways registered, [gw-A] first. *)
Definition two_gateways : World :=
  run clock reliable [RegisterGateway "gw-A" siteA; RegisterGateway "gw-B" siteB] init.

Definition entryA : Gateway.t :=
  Gateway.mk "gw-A" (JStr "SiteA") 1700000000000 "gw-A" (JNum 3) 1700000000001.

Definition entryB : Gateway.t :=
  Gateway.mk "gw-B" (JStr "SiteB") 1700000000002 "gw-B" (JNum 1) 1700000000003.

End Sample.

(** ** The reporting routes of [setupRoutes]

    A route reads the maps and answers with a value; it writes nothing.
    The values are the ones handed to [res.json], a [Date] as its time
    value. *)

Module GatewayInfo.
Record t : Type := mk {
  siteName : jsval;
  connectedAt : Z;
  deviceCount : jsval
}.
End GatewayInfo.

Module GatewaysReport.
Record t : Type := mk {
  count : nat;
  gateways : list GatewayInfo.t
}.
End GatewaysReport.

(** [GET /api/gateways]: [Array.from(this.gateways.values()).map(...)] and
    its [length]. *)
Definition api_gateways (w : World) : GatewaysReport.t :=
  let listed :=
    (λ g, GatewayInfo.mk (Gateway.siteName g) (Gateway.connectedAt g)
            (js_or (Gateway.deviceCount g) (JNum 0)))
    <$> JsMap.values (gateways w) in
  GatewaysReport.mk (length listed) listed.

Module StreamInfo.
Record t : Type := mk {
  streamKey : string;
  streamPath : string;
  startTime : Z;
  active : bool
}.
End StreamInfo.

(** [GET /api/streams]: the [streams] array of the answer,
    [Array.from(this.rtmpStreams.entries()).map(([key, value]) => ...)]. *)
Definition api_streams (w : World) : list StreamInfo.t :=
  (λ entry, StreamInfo.mk entry.1 (Stream.streamPath entry.2)
              (Stream.startTime entry.2) (Stream.active entry.2))
  <$> rtmpStreams w.

(** ** Further predicates *)

(** The events whose handlers write [this.rtmpStreams]. *)
Definition writes_tracker (e : Event) : bool :=
  match e with
  | PrePublish _ _ | DonePublish _ _ => true
  | _ => false
  end.

(** A computation that leaves the part [f] of the world as it found it,
    whether it returns or throws. *)
Definition preserves {X A} (f : World → X) (m : M A) : Prop :=
  ∀ w, f (exec m w) = f w.

(** The payloads a trace broadcast to all sockets under one event name. *)
Definition emitted (event : string) (w : World) : list jsval :=
  io_events event (trace w).

(** The operator events, with the name under which each is passed on to
    the gateways and its payload. *)
Definition relayed (e : Event) : option (string * jsval) :=
  match e with
  | CloudMessage _ data => Some ("cloud-message", data)
  | RequestDevices _ data => Some ("request-devices", data)
  | DeviceControl _ data => Some ("device-control", data)
  | StreamControl _ data => Some ("stream-control", data)
  | _ => None
  end.

(** The event name under which a handler calls [this.io.emit], if it
    has such a call. *)
Definition announces (e : Event) : option string :=
  match e with
  | RegisterGateway _ _ => Some "gateway-connected"
  | GatewayResponse _ _ => Some "gateway-response"
  | Disconnect _ => Some "gateway-disconnected"
  | PrePublish _ _ => Some "stream-started"
  | DonePublish _ _ => Some "stream-ended"
  | _ => None
  end.

(** Whether the site name a registration puts into its log line converts
    to a string; every other event counts as fine. *)
Definition logs_cleanly (e : Event) : bool :=
  match e with
  | RegisterGateway _ data => converts (lookup_prop data "siteName")
  | _ => true
  end.

(** * Facts *)

(** ** Insertion-ordered maps *)

Section JsMapFacts.

Context {V : Type}.
Implicit Types (m : JsMap.t V) (k : string) (v : V).

Lemma get_None k m : JsMap.get k m = None ↔ k ∉ JsMap.keys m.
Proof.
  unfold JsMap.keys. induction m as [|[k' v'] m IH]; simpl.
  - split; [intros _; apply not_elem_of_nil | done].
  - rewrite not_elem_of_cons. destruct (decide (k' = k)) as [->|Hne].
    + split; [done | intros [? _]; done].
    + rewrite IH. split; [intros ?; split; [congruence | done] | intros [_ ?]; done].
Qed.

Lemma get_Some_key k v m : JsMap.get k m = Some v → k ∈ JsMap.keys m.
Proof.
  intros Hget. destruct (decide (k ∈ JsMap.keys m)) as [|Hn]; [done|].
  apply get_None in Hn. congruence.
Qed.

Lemma get_set_eq k v m : JsMap.get k (JsMap.set k v m) = Some v.
Proof.
  induction m as [|[k' v'] m IH]; simpl.
  - by rewrite decide_True.
  - destruct (decide (k' = k)); simpl.
    + by rewrite decide_True.
    + by rewrite decide_False.
Qed.

Lemma get_set_ne k k' v m : k ≠ k' → JsMap.get k' (JsMap.set k v m) = JsMap.get k' m.
Proof.
  intros Hne. induction m as [|[k0 v0] m IH]; simpl.
  - by rewrite decide_False.
  - destruct (decide (k0 = k)) as [->|]; simpl.
    + by rewrite !decide_False.
    + by rewrite IH.
Qed.

Lemma keys_set_present k v m :
  k ∈ JsMap.keys m → JsMap.keys (JsMap.set k v m) = JsMap.keys m.
Proof.
  unfold JsMap.keys. induction m as [|[k0 v0] m IH]; simpl.
  - intros H. by apply elem_of_nil in H.
  - intros H. destruct (decide (k0 = k)) as [->|Hne]; simpl; [done|].
    f_equal. apply IH. apply elem_of_cons in H as [?|?]; [congruence | done].
Qed.

Lemma keys_set_absent k v m :
  k ∉ JsMap.keys m → JsMap.keys (JsMap.set k v m) = JsMap.keys m ++ [k].
Proof.
  unfold JsMap.keys. induction m as [|[k0 v0] m IH]; simpl; [done|].
  rewrite not_elem_of_cons. intros [Hne Hnot].
  rewrite decide_False by congruence. csimpl. f_equal. by apply IH.
Qed.

Lemma wf_set k v m : JsMap.wf m → JsMap.wf (JsMap.set k v m).
Proof.
  unfold JsMap.wf. intros Hwf. destruct (decide (k ∈ JsMap.keys m)) as [Hin|Hnot].
  - by rewrite keys_set_present.
  - rewrite keys_set_absent by done. apply NoDup_app. split; [done|].
    split; [|apply NoDup_singleton].
    intros x Hx Hx'. apply list_elem_of_singleton in Hx'. by subst.
Qed.

Lemma size_set_present k v m :
  k ∈ JsMap.keys m → JsMap.size (JsMap.set k v m) = JsMap.size m.
Proof.
  intros H. unfold JsMap.size.
  rewrite <- (length_fmap fst (JsMap.set k v m)), <- (length_fmap fst m).
  change (length (JsMap.keys (JsMap.set k v m)) = length (JsMap.keys m)).
  by rewrite keys_set_present.
Qed.

Lemma size_set_absent k v m :
  k ∉ JsMap.keys m → JsMap.size (JsMap.set k v m) = S (JsMap.size m).
Proof.
  intros H. unfold JsMap.size.
  rewrite <- (length_fmap fst (JsMap.set k v m)), <- (length_fmap fst m).
  change (length (JsMap.keys (JsMap.set k v m)) = S (length (JsMap.keys m))).
  rewrite keys_set_absent by done. rewrite length_app. simpl. lia.
Qed.

Lemma values_set_Forall (P : V → Prop) k v m :
  P v → Forall P (JsMap.values m) → Forall P (JsMap.values (JsMap.set k v m)).
Proof.
  unfold JsMap.values. intros Hv. induction m as [|[k0 v0] m IH]; simpl.
  - intros _. by constructor.
  - intros Hall. apply Forall_cons in Hall as [H0 Hall].
    destruct (decide (k0 = k)); simpl; constructor; auto.
Qed.

Lemma get_delete_eq k m : JsMap.get k (JsMap.delete k m) = None.
Proof.
  apply get_None. unfold JsMap.keys, JsMap.delete.
  intros Hin. apply list_elem_of_fmap in Hin as [[k' v'] [-> Hin]].
  apply list_elem_of_filter in Hin as [Hne _]. by apply Hne.
Qed.


Lemma delete_absent k m : JsMap.get k m = None → JsMap.delete k m = m.
Proof.
  unfold JsMap.delete. induction m as [|[k0 v0] m IH]; [done|]. simpl.
  destruct (decide (k0 = k)) as [->|Hne]; [done|]. intros Hget.
  rewrite filter_cons_True by done. by rewrite IH.
Qed.

Lemma wf_delete k m : JsMap.wf m → JsMap.wf (JsMap.delete k m).
Proof.
  unfold JsMap.wf, JsMap.keys, JsMap.delete.
  induction m as [|[k0 v0] m IH]; [done|]. simpl. intros Hnd.
  apply NoDup_cons in Hnd as [Hnot Hnd]. rewrite filter_cons. simpl.
  destruct (decide (k0 ≠ k)); [|by apply IH]. simpl. apply NoDup_cons. split; [|by apply IH].
  intros Hin. apply Hnot. apply list_elem_of_fmap in Hin as [[k' v'] [-> Hin]].
  apply list_elem_of_filter in Hin as [_ Hin]. apply list_elem_of_fmap. by exists (k', v').
Qed.

Lemma values_delete_Forall (P : V → Prop) k m :
  Forall P (JsMap.values m) → Forall P (JsMap.values (JsMap.delete k m)).
Proof.
  unfold JsMap.values, JsMap.delete. induction m as [|[k0 v0] m IH]; [done|].
  csimpl. intros Hall. apply Forall_cons in Hall as [H0 Hall].
  rewrite filter_cons. destruct (decide ((k0, v0).1 ≠ k)); csimpl; auto.
Qed.

Lemma keys_mutate (f : V → V) k m : JsMap.keys (JsMap.mutate f k m) = JsMap.keys m.
Proof.
  unfold JsMap.keys. induction m as [|[k0 v0] m IH]; [done|]. simpl.
  destruct (decide (k0 = k)); csimpl; [done | by f_equal].
Qed.

Lemma get_mutate_eq (f : V → V) k m :
  JsMap.get k (JsMap.mutate f k m) = f <$> JsMap.get k m.
Proof.
  induction m as [|[k0 v0] m IH]; [done|]. simpl.
  destruct (decide (k0 = k)) as [->|Hne]; simpl.
  - by rewrite decide_True.
  - by rewrite decide_False.
Qed.

Lemma get_mutate_ne (f : V → V) k k' m :
  k ≠ k' → JsMap.get k' (JsMap.mutate f k m) = JsMap.get k' m.
Proof.
  intros Hne. induction m as [|[k0 v0] m IH]; [done|]. simpl.
  destruct (decide (k0 = k)) as [->|]; simpl.
  - by rewrite !decide_False.
  - by rewrite IH.
Qed.

Lemma wf_mutate (f : V → V) k m : JsMap.wf m → JsMap.wf (JsMap.mutate f k m).
Proof. unfold JsMap.wf. by rewrite keys_mutate. Qed.

Lemma values_mutate_Forall (P : V → Prop) (f : V → V) k m :
  (∀ v, P v → P (f v)) →
  Forall P (JsMap.values m) → Forall P (JsMap.values (JsMap.mutate f k m)).
Proof.
  unfold JsMap.values. intros Hf. induction m as [|[k0 v0] m IH]; [done|]. simpl.
  intros Hall. apply Forall_cons in Hall as [H0 Hall].
  destruct (decide (k0 = k)); simpl; constructor; auto.
Qed.

Lemma entries_under_absent k m : k ∉ JsMap.keys m → entries_under k m = [].
Proof.
  unfold JsMap.keys, entries_under. induction m as [|[k0 v0] m IH]; [done|].
  csimpl. rewrite not_elem_of_cons. intros [Hne Hnot].
  rewrite filter_cons_False by (simpl; congruence). by apply IH.
Qed.

(** In a well-formed map a present key has exactly one entry. *)
Lemma entries_under_wf k v m :
  JsMap.wf m → JsMap.get k m = Some v → entries_under k m = [(k, v)].
Proof.
  unfold JsMap.wf. induction m as [|[k0 v0] m IH]; [done|].
  unfold JsMap.keys. csimpl. intros Hnd. apply NoDup_cons in Hnd as [Hnot Hnd].
  unfold entries_under. rewrite filter_cons. simpl.
  destruct (decide (k0 = k)) as [->|Hne].
  - intros [= ->]. f_equal. by apply entries_under_absent.
  - intros Hget. by apply IH.
Qed.

End JsMapFacts.

(** ** Stream keys *)

(** [split] returns the segments before the last separator and then the
    separator-free rest of the string. *)
Lemma split_snoc (sep : ascii) (s : string) :
  ∃ segs key,
    split sep s = segs ++ [key] ∧ contains sep key = false ∧
    ((segs = [] ∧ s = key) ∨
     (segs ≠ [] ∧ ∃ pre, s = pre +:+ String sep key)).
Proof.
  induction s as [|c s (segs & key & Hsplit & Hkey & Hshape)]; simpl.
  - exists [], EmptyString. auto.
  - destruct (decide (c = sep)) as [->|Hne].
    + exists (EmptyString :: segs), key. rewrite Hsplit. split; [done|]. split; [done|].
      right. split; [done|]. destruct Hshape as [[_ ->]|[_ [pre ->]]].
      * by exists EmptyString.
      * by exists (String sep pre).
    + rewrite Hsplit. destruct Hshape as [[-> ->]|[Hsegs [pre ->]]].
      * exists [], (String c key). simpl. rewrite bool_decide_eq_false_2 by done. auto.
      * destruct segs as [|seg segs]; [done|]. simpl.
        exists (String c seg :: segs), key. split; [done|]. split; [done|].
        right. split; [done|]. by exists (String c pre).
Qed.

Lemma pop_split (sep : ascii) (s : string) : is_Some (pop (split sep s)).
Proof.
  destruct (split_snoc sep s) as (segs & key & -> & _). unfold pop.
  rewrite last_snoc. by eexists.
Qed.

Lemma streamKeyOf_pop (StreamPath : string) :
  pop (split "/" StreamPath) = Some (streamKeyOf StreamPath).
Proof.
  unfold streamKeyOf. by destruct (pop_split "/" StreamPath) as [key ->].
Qed.

Lemma streamKeyOf_last_segment (StreamPath : string) :
  contains "/" (streamKeyOf StreamPath) = false ∧
  ((contains "/" StreamPath = false ∧ StreamPath = streamKeyOf StreamPath) ∨
   (∃ pre, StreamPath = pre +:+ "/" +:+ streamKeyOf StreamPath)).
Proof.
  unfold streamKeyOf, pop.
  destruct (split_snoc "/" StreamPath) as (segs & key & -> & Hkey & Hshape).
  rewrite last_snoc. simpl. split; [done|].
  destruct Hshape as [[_ ->]|[_ [pre ->]]]; [left | right]; eauto.
Qed.

(** ** The handlers *)

Section ServerFacts.

Context (clock : nat → Z) (closed : string → bool).

Ltac run_handler :=
  unfold exec, result, bind, interpolate, console_log, io_emit, emit_effect,
    set_rtmpStreams, set_gateways, read, now, ret, throw;
  simpl; rewrite <- ?app_assoc; simpl.

(** *** The stream tracker *)

Lemma prePublish_run id StreamPath w :
  prePublish clock id StreamPath w =
  (Returns tt,
   mkWorld (gateways w)
     (JsMap.set (streamKeyOf StreamPath)
        (Stream.mk id StreamPath (clock (ticks w)) true) (rtmpStreams w))
     (trace w ++
      [ConsoleLog "📡 RTMP 推流開始:" [JStr ("StreamPath=" +:+ StreamPath)];
       IoEmit "stream-started"
         (JObj [("streamKey", JStr (streamKeyOf StreamPath));
                ("streamPath", JStr StreamPath);
                ("timestamp", JNum (clock (S (ticks w))))])])
     (S (S (ticks w)))).
Proof. unfold prePublish. by run_handler. Qed.

Lemma donePublish_run id StreamPath w :
  donePublish clock id StreamPath w =
  (Returns tt,
   mkWorld (gateways w)
     (JsMap.delete (streamKeyOf StreamPath) (rtmpStreams w))
     (trace w ++
      [ConsoleLog "📡 RTMP 推流結束:" [JStr ("StreamPath=" +:+ StreamPath)];
       IoEmit "stream-ended"
         (JObj [("streamKey", JStr (streamKeyOf StreamPath));
                ("timestamp", JNum (clock (ticks w)))])])
     (S (ticks w))).
Proof. unfold donePublish. by run_handler. Qed.

(** C3, as the code has it: [donePublish] for a stream key the tracker does
    not hold leaves the tracker (and the registry) as they were and returns
    normally, and it still emits one [stream-ended] event, carrying the
    stream key and the time of the stop. *)
Theorem C3_stop_without_start id StreamPath w :
  JsMap.get (streamKeyOf StreamPath) (rtmpStreams w) = None →
  let w' := exec (donePublish clock id StreamPath) w in
  result (donePublish clock id StreamPath) w = Returns tt ∧
  rtmpStreams w' = rtmpStreams w ∧
  gateways w' = gateways w ∧
  trace w' =
    trace w ++
    [ConsoleLog "📡 RTMP 推流結束:" [JStr ("StreamPath=" +:+ StreamPath)];
     IoEmit "stream-ended"
       (JObj [("streamKey", JStr (streamKeyOf StreamPath));
              ("timestamp", JNum (clock (ticks w)))])].
Proof.
  intros Habsent w'. subst w'. unfold exec, result.
  rewrite donePublish_run. simpl. by rewrite delete_absent.
Qed.

(** C4: both publish handlers key the tracker by [streamKeyOf StreamPath],
    the last [/]-delimited segment of the path: it is what
    [split('/').pop()] returns, it holds no [/], and the path is either the
    key itself (a path without [/]) or some prefix, a [/], and the key.  The
    session id plays no part: a stop under any id removes what a start
    under any other id recorded for the same path.  [live/cam-07] gives
    [cam-07]. *)
Theorem C4_stream_key_derivation :
  streamKeyOf "live/cam-07" = "cam-07" ∧
  (∀ StreamPath,
     pop (split "/" StreamPath) = Some (streamKeyOf StreamPath) ∧
     contains "/" (streamKeyOf StreamPath) = false ∧
     ((contains "/" StreamPath = false ∧ StreamPath = streamKeyOf StreamPath) ∨
      (∃ pre, StreamPath = pre +:+ "/" +:+ streamKeyOf StreamPath))) ∧
  (∀ id StreamPath w,
     let w' := exec (prePublish clock id StreamPath) w in
     rtmpStreams w' =
       JsMap.set (streamKeyOf StreamPath)
         (Stream.mk id StreamPath (clock (ticks w)) true) (rtmpStreams w) ∧
     io_events "stream-started" (drop (length (trace w)) (trace w')) =
       [JObj [("streamKey", JStr (streamKeyOf StreamPath));
              ("streamPath", JStr StreamPath);
              ("timestamp", JNum (clock (S (ticks w))))]]) ∧
  (∀ id StreamPath w,
     let w' := exec (donePublish clock id StreamPath) w in
     rtmpStreams w' = JsMap.delete (streamKeyOf StreamPath) (rtmpStreams w) ∧
     io_events "stream-ended" (drop (length (trace w)) (trace w')) =
       [JObj [("streamKey", JStr (streamKeyOf StreamPath));
              ("timestamp", JNum (clock (ticks w)))]]) ∧
  (∀ id id' StreamPath w,
     JsMap.get (streamKeyOf StreamPath)
       (rtmpStreams (exec (donePublish clock id' StreamPath)
                       (exec (prePublish clock id StreamPath) w))) = None).
Proof.
  split; [reflexivity|]. split.
  { intros StreamPath. split; [apply streamKeyOf_pop | apply streamKeyOf_last_segment]. }
  split; [|split].
  - intros id StreamPath w w'. subst w'. unfold exec. rewrite prePublish_run. simpl.
    split; [done|]. by rewrite drop_app_length.
  - intros id StreamPath w w'. subst w'. unfold exec. rewrite donePublish_run. simpl.
    split; [done|]. by rewrite drop_app_length.
  - intros id id' StreamPath w. unfold exec.
    rewrite prePublish_run, donePublish_run. simpl. apply get_delete_eq.
Qed.

(** C5: on an empty tracker, a publish start followed at once by a publish
    stop for the same path leaves the tracker with no entry. *)
Theorem C5_start_then_stop id id' StreamPath w :
  rtmpStreams w = [] →
  JsMap.size
    (rtmpStreams (exec (donePublish clock id' StreamPath)
                    (exec (prePublish clock id StreamPath) w))) = 0.
Proof.
  intros Hempty. unfold exec. rewrite prePublish_run, donePublish_run. simpl.
  rewrite Hempty. simpl. unfold JsMap.delete.
  rewrite filter_cons_False by (simpl; auto). done.
Qed.

(** *** The gateway registry *)

Lemma register_gateway_run sock data w :
  nullish data = false →
  converts (lookup_prop data "siteName") = true →
  register_gateway clock sock data w =
  (Returns tt,
   mkWorld
     (JsMap.set sock
        (Gateway.mk sock (js_or (lookup_prop data "siteName") (JStr unnamed_site))
           (clock (ticks w)) sock
           (js_or (lookup_prop data "deviceCount") (JNum 0))
           (clock (S (ticks w))))
        (gateways w))
     (rtmpStreams w)
     (trace w ++
      [ConsoleLog "✅ 閘道器註冊: ${data.siteName}" [lookup_prop data "siteName"];
       IoEmit "gateway-connected"
         (JObj [("siteName", lookup_prop data "siteName");
                ("deviceCount", js_or (lookup_prop data "deviceCount") (JNum 0))])])
     (S (S (ticks w)))).
Proof.
  intros Hdata Hname. unfold register_gateway, get_prop. rewrite Hdata.
  run_handler. rewrite Hname. by run_handler.
Qed.

(** A site name without a conversion to string: the entry is stored, and
    the log line throws before the event goes out. *)
Lemma register_gateway_unlogged sock data w :
  nullish data = false →
  converts (lookup_prop data "siteName") = false →
  register_gateway clock sock data w =
  (Throws ConversionError,
   mkWorld
     (JsMap.set sock
        (Gateway.mk sock (js_or (lookup_prop data "siteName") (JStr unnamed_site))
           (clock (ticks w)) sock
           (js_or (lookup_prop data "deviceCount") (JNum 0))
           (clock (S (ticks w))))
        (gateways w))
     (rtmpStreams w) (trace w) (S (S (ticks w)))).
Proof.
  intros Hdata Hname. unfold register_gateway, get_prop. rewrite Hdata.
  run_handler. rewrite Hname. by run_handler.
Qed.

Lemma register_gateway_gateways sock data w :
  nullish data = false →
  gateways (exec (register_gateway clock sock data) w) =
  JsMap.set sock
    (Gateway.mk sock (js_or (lookup_prop data "siteName") (JStr unnamed_site))
       (clock (ticks w)) sock
       (js_or (lookup_prop data "deviceCount") (JNum 0))
       (clock (S (ticks w))))
    (gateways w) ∧
  ticks (exec (register_gateway clock sock data) w) = S (S (ticks w)).
Proof.
  intros Hdata. unfold exec.
  destruct (converts (lookup_prop data "siteName")) eqn:Hname.
  - by rewrite register_gateway_run.
  - by rewrite register_gateway_unlogged.
Qed.

Lemma register_gateway_throws sock data w :
  nullish data = true →
  register_gateway clock sock data w = (Throws (TypeError "siteName"), w).
Proof.
  intros Hdata. unfold register_gateway, get_prop. rewrite Hdata. by run_handler.
Qed.

Lemma heartbeat_absent sock data w :
  JsMap.get sock (gateways w) = None →
  heartbeat clock sock data w = (Returns tt, w).
Proof.
  intros Hget. unfold heartbeat, JsMap.has. run_handler. by rewrite Hget.
Qed.

Lemma heartbeat_present sock data g w :
  JsMap.get sock (gateways w) = Some g →
  heartbeat clock sock data w =
  (if nullish data then Throws (TypeError "deviceCount") else Returns tt,
   mkWorld
     (if is_undefined (lookup_prop data "deviceCount")
      then JsMap.mutate (Gateway.with_lastHeartbeat (clock (ticks w))) sock (gateways w)
      else JsMap.mutate (Gateway.with_deviceCount (lookup_prop data "deviceCount")) sock
             (JsMap.mutate (Gateway.with_lastHeartbeat (clock (ticks w))) sock
                (gateways w)))
     (rtmpStreams w) (trace w) (S (ticks w))).
Proof.
  intros Hget. unfold heartbeat, JsMap.has, get_prop. run_handler. rewrite Hget.
  destruct data; simpl; try done.
  by destruct (is_undefined _).
Qed.

Lemma disconnect_gateways sock w :
  gateways (exec (disconnect sock) w) = JsMap.delete sock (gateways w) ∨
  gateways (exec (disconnect sock) w) = gateways w.
Proof.
  unfold exec, disconnect. run_handler.
  destruct (JsMap.get sock (gateways w)) as [g|]; [|by right].
  run_handler. destruct (converts (Gateway.siteName g)); [by left | by right].
Qed.

Lemma disconnect_absent sock w :
  JsMap.get sock (gateways w) = None → disconnect sock w = (Returns tt, w).
Proof. intros Hget. unfold disconnect. run_handler. by rewrite Hget. Qed.

Lemma disconnect_present sock g w :
  JsMap.get sock (gateways w) = Some g →
  converts (Gateway.siteName g) = true →
  disconnect sock w =
  (Returns tt,
   mkWorld (JsMap.delete sock (gateways w)) (rtmpStreams w)
     (trace w ++
      [ConsoleLog "❌ 閘道器斷線: ${gateway.siteName}" [Gateway.siteName g];
       IoEmit "gateway-disconnected" (JObj [("siteName", Gateway.siteName g)])])
     (ticks w)).
Proof.
  intros Hget Hname. unfold disconnect. run_handler. rewrite Hget.
  run_handler. rewrite Hname. by run_handler.
Qed.

(** A stored site name without a conversion to string: the log line throws
    before the event and the removal. *)
Lemma disconnect_stuck sock g w :
  JsMap.get sock (gateways w) = Some g →
  converts (Gateway.siteName g) = false →
  disconnect sock w = (Throws ConversionError, w).
Proof.
  intros Hget Hname. unfold disconnect. run_handler. rewrite Hget.
  run_handler. rewrite Hname. by run_handler.
Qed.

Lemma size_set_twice {V} (k : string) (v v' : V) (m : JsMap.t V) :
  JsMap.size (JsMap.set k v' (JsMap.set k v m)) = JsMap.size (JsMap.set k v m) ∧
  JsMap.size (JsMap.set k v' m) = JsMap.size (JsMap.set k v m).
Proof.
  split.
  - apply size_set_present. eapply get_Some_key, get_set_eq.
  - destruct (decide (k ∈ JsMap.keys m)).
    + by rewrite !size_set_present.
    + by rewrite !size_set_absent.
Qed.

(** C6, as the code has it: when the second of two registrations on the
    same connection comes with a payload (anything but [undefined] and
    [null]), exactly one entry is left under the connection's id, holding
    what the second call computed from its payload (site name and device
    count with their defaults, and the second call's two clock reads); the
    registry is as large as after the second call alone and, when the
    first call had a payload too, as large as after the first call.  (A
    call without a payload throws before it stores anything.) *)
Theorem C6_register_twice sock data1 data2 w :
  JsMap.wf (gateways w) →
  nullish data2 = false →
  let w1 := exec (register_gateway clock sock data1) w in
  let w2 := exec (register_gateway clock sock data2) w1 in
  (∃ g, entries_under sock (gateways w2) = [(sock, g)] ∧
        JsMap.get sock (gateways w2) = Some g ∧
        Gateway.id g = sock ∧
        Gateway.socket g = sock ∧
        Gateway.siteName g = js_or (lookup_prop data2 "siteName") (JStr unnamed_site) ∧
        Gateway.deviceCount g = js_or (lookup_prop data2 "deviceCount") (JNum 0) ∧
        Gateway.connectedAt g = clock (ticks w1) ∧
        Gateway.lastHeartbeat g = clock (S (ticks w1))) ∧
  JsMap.size (gateways w2) =
    JsMap.size (gateways (exec (register_gateway clock sock data2) w)) ∧
  (nullish data1 = false → JsMap.size (gateways w2) = JsMap.size (gateways w1)) ∧
  JsMap.wf (gateways w2).
Proof.
  intros Hwf H2 w1 w2. subst w2.
  destruct (register_gateway_gateways sock data2 w1 H2) as [-> _].
  destruct (register_gateway_gateways sock data2 w H2) as [-> _].
  assert (Hwf1 : JsMap.wf (gateways w1)).
  { subst w1. destruct (nullish data1) eqn:H1.
    - unfold exec. by rewrite register_gateway_throws.
    - destruct (register_gateway_gateways sock data1 w H1) as [-> _]. by apply wf_set. }
  split; [|split; [|split]].
  - eexists. split; [|split; [apply get_set_eq | done]].
    apply entries_under_wf; [by apply wf_set | apply get_set_eq].
  - subst w1. destruct (nullish data1) eqn:H1.
    + unfold exec. rewrite register_gateway_throws by done. simpl.
      apply size_set_twice.
    + destruct (register_gateway_gateways sock data1 w H1) as [-> _].
      destruct (size_set_twice sock
        (Gateway.mk sock (js_or (lookup_prop data1 "siteName") (JStr unnamed_site))
           (clock (ticks w)) sock (js_or (lookup_prop data1 "deviceCount") (JNum 0))
           (clock (S (ticks w))))
        (Gateway.mk sock (js_or (lookup_prop data2 "siteName") (JStr unnamed_site))
           (clock (ticks w)) sock (js_or (lookup_prop data2 "deviceCount") (JNum 0))
           (clock (S (ticks w))))
        (gateways w)) as [_ Hsingle].
      rewrite Hsingle. apply size_set_twice.
  - intros H1. subst w1.
    destruct (register_gateway_gateways sock data1 w H1) as [-> _].
    apply size_set_twice.
  - by apply wf_set.
Qed.


(** C8: a heartbeat on a connection that is not registered changes nothing
    and is no error.  On a registered one the entry gets the clock reading
    as [lastHeartbeat]; its [deviceCount] becomes the payload's when the
    payload has one other than [undefined] and stays as it was otherwise;
    its other fields, every other entry, the order of the registry, the
    stream tracker and the trace stay as they were. *)
Theorem C8_heartbeat_frame sock data w :
  (JsMap.get sock (gateways w) = None →
     heartbeat clock sock data w = (Returns tt, w)) ∧
  (∀ g, JsMap.get sock (gateways w) = Some g →
     let w' := exec (heartbeat clock sock data) w in
     result (heartbeat clock sock data) w =
       (if nullish data then Throws (TypeError "deviceCount") else Returns tt) ∧
     (∃ g', JsMap.get sock (gateways w') = Some g' ∧
            Gateway.lastHeartbeat g' = clock (ticks w) ∧
            Gateway.deviceCount g' =
              (if is_undefined (lookup_prop data "deviceCount")
               then Gateway.deviceCount g
               else lookup_prop data "deviceCount") ∧
            Gateway.siteName g' = Gateway.siteName g ∧
            Gateway.connectedAt g' = Gateway.connectedAt g ∧
            Gateway.id g' = Gateway.id g ∧
            Gateway.socket g' = Gateway.socket g) ∧
     (∀ k, k ≠ sock → JsMap.get k (gateways w') = JsMap.get k (gateways w)) ∧
     JsMap.keys (gateways w') = JsMap.keys (gateways w) ∧
     rtmpStreams w' = rtmpStreams w ∧
     trace w' = trace w).
Proof.
  split; [apply heartbeat_absent|].
  intros g Hget w'. subst w'. unfold exec, result.
  rewrite (heartbeat_present sock data g w Hget). simpl. split; [done|].
  destruct (is_undefined (lookup_prop data "deviceCount")).
  - split; [|split; [|split]]; [| |by rewrite keys_mutate|done].
    + rewrite get_mutate_eq, Hget. simpl. eexists. split; [done|]. by simpl.
    + intros k Hk. by rewrite get_mutate_ne.
  - split; [|split; [|split]]; [| |by rewrite !keys_mutate|done].
    + rewrite !get_mutate_eq, Hget. simpl. eexists. split; [done|]. by simpl.
    + intros k Hk. by rewrite !get_mutate_ne.
Qed.

(** C10: a registration whose payload has no [siteName] stores the
    placeholder as the entry's site name, while the [gateway-connected]
    event of the same call carries the payload's own [siteName], that is
    [undefined]; the event's [deviceCount] is the payload's or, when that is
    absent, 0. *)
Theorem C10_register_without_siteName sock data w :
  nullish data = false →
  lookup_prop data "siteName" = JUndefined →
  let w' := exec (register_gateway clock sock data) w in
  (∃ g, JsMap.get sock (gateways w') = Some g ∧
        Gateway.siteName g = JStr unnamed_site) ∧
  (∃ count,
     io_events "gateway-connected" (drop (length (trace w)) (trace w')) =
       [JObj [("siteName", JUndefined); ("deviceCount", count)]] ∧
     count = js_or (lookup_prop data "deviceCount") (JNum 0) ∧
     (lookup_prop data "deviceCount" = JUndefined → count = JNum 0)).
Proof.
  intros Hdata Hname w'. subst w'. unfold exec.
  rewrite (register_gateway_run sock data w Hdata) by (by rewrite Hname).
  simpl. rewrite Hname. split.
  - eexists. split; [apply get_set_eq | done].
  - eexists. rewrite drop_app_length. split; [done|]. split; [done|].
    by intros ->.
Qed.

(** *** The broadcast *)

Lemma forEach_app {V A} (m1 m2 : JsMap.t V) (f : V → A → M A) (acc : A) (w : World) :
  forEach (m1 ++ m2) f acc w = bind (forEach m1 f acc) (forEach m2 f) w.
Proof.
  revert acc w. induction m1 as [|[k v] m1 IH]; intros acc w; [done|].
  simpl. unfold bind. destruct (f v acc w) as [[a|e] w1]; [|done].
  rewrite IH. reflexivity.
Qed.

Lemma forEach_deliveries event data (m : JsMap.t Gateway.t) (acc : Z) (w : World) :
  forEach m (send_to_gateway clock closed event data) acc w =
  (Returns (acc + Z.of_nat (length m))%Z,
   mkWorld (gateways w) (rtmpStreams w)
     (trace w ++ deliveries clock closed event data (ticks w) m)
     (ticks w + length m)).
Proof.
  revert acc w. induction m as [|[k g] m IH]; intros acc w.
  - simpl. unfold ret. destruct w; simpl.
    by rewrite Z.add_0_r, app_nil_r, Nat.add_0_r.
  - simpl. unfold bind at 1, send_to_gateway, socket_emit.
    destruct (closed (Gateway.socket g)); run_handler; rewrite IH; simpl;
      rewrite <- ?app_assoc; simpl; (f_equal; [f_equal; lia | f_equal; lia]).
Qed.

Lemma deliveries_open event data t0 (m : JsMap.t Gateway.t) :
  Forall (λ g, closed (Gateway.socket g) = false) (JsMap.values m) →
  deliveries clock closed event data t0 m = sends clock event data t0 m.
Proof.
  unfold sends, JsMap.values. revert t0.
  induction m as [|[k g] m IH]; intros t0 Hok; [done|].
  csimpl in Hok. apply Forall_cons in Hok as [Hg Hok].
  csimpl. rewrite Hg, Nat.add_0_r. simpl. f_equal. rewrite IH by done.
  apply imap_ext. intros i g' _. simpl. do 3 f_equal. lia.
Qed.

Lemma sent_to_app tr1 tr2 : sent_to (tr1 ++ tr2) = sent_to tr1 ++ sent_to tr2.
Proof. unfold sent_to. apply omap_app. Qed.

Lemma sent_to_deliveries event data t0 (m : JsMap.t Gateway.t) :
  sent_to (deliveries clock closed event data t0 m) =
  filter (λ s, closed s = false) (Gateway.socket <$> JsMap.values m).
Proof.
  unfold JsMap.values. revert t0. induction m as [|[k g] m IH]; intros t0; [done|].
  csimpl. rewrite sent_to_app, IH, filter_cons.
  by destruct (closed (Gateway.socket g)).
Qed.

Lemma deliveries_reach event data t0 (m : JsMap.t Gateway.t) g :
  g ∈ JsMap.values m → closed (Gateway.socket g) = false →
  ∃ t, SocketEmit (Gateway.socket g) event (augment data t)
       ∈ deliveries clock closed event data t0 m.
Proof.
  unfold JsMap.values. revert t0. induction m as [|[k g0] m IH]; intros t0 Hin Hopen.
  - by apply elem_of_nil in Hin.
  - csimpl in Hin. apply elem_of_cons in Hin as [->|Hin]; simpl.
    + rewrite Hopen. eexists. apply elem_of_app. left. apply list_elem_of_here.
    + destruct (IH (S t0) Hin Hopen) as [t Ht]. exists t.
      apply elem_of_app. by right.
Qed.

Lemma sent_to_sends event data t0 (m : JsMap.t Gateway.t) :
  sent_to (sends clock event data t0 m) = Gateway.socket <$> JsMap.values m.
Proof.
  unfold sends. generalize (JsMap.values m) as l. intros l. revert t0.
  induction l as [|g l IH]; intros t0; [done|].
  rewrite imap_cons. csimpl. f_equal. rewrite <- (IH (S t0)). f_equal.
  apply imap_ext. intros i g' _. simpl. do 3 f_equal. lia.
Qed.

Lemma length_sends event data t0 (m : JsMap.t Gateway.t) :
  length (sends clock event data t0 m) = JsMap.size m.
Proof. unfold sends, JsMap.values, JsMap.size. by rewrite length_imap, length_fmap. Qed.

(** What [augment] adds to a payload and what it keeps. *)
Lemma augment_props data t :
  lookup_prop (augment data t) "timestamp" = JNum t ∧
  lookup_prop (augment data t) "fromCloud" = JBool true ∧
  (∀ name, name ≠ "timestamp" → name ≠ "fromCloud" →
     lookup_prop (augment data t) name = lookup_prop (JObj (spread data)) name).
Proof.
  unfold augment, lookup_prop. split; [|split].
  - rewrite get_set_ne by done. by rewrite get_set_eq.
  - by rewrite get_set_eq.
  - intros name H1 H2. rewrite !get_set_ne by done. done.
Qed.

Lemma broadcastToGateways_any event data w :
  broadcastToGateways clock closed event data w =
  (Returns JUndefined,
   mkWorld (gateways w) (rtmpStreams w)
     (trace w ++ deliveries clock closed event data (ticks w) (gateways w) ++
      [ConsoleLog "📡 廣播 ${event} 給 ${count} 個閘道器"
         [JStr event; JNum (Z.of_nat (JsMap.size (gateways w)))]])
     (ticks w + JsMap.size (gateways w))).
Proof.
  unfold broadcastToGateways, bind, read. rewrite forEach_deliveries. by run_handler.
Qed.

Lemma broadcastToGateways_run event data w :
  Forall (λ g, closed (Gateway.socket g) = false) (JsMap.values (gateways w)) →
  broadcastToGateways clock closed event data w =
  (Returns JUndefined,
   mkWorld (gateways w) (rtmpStreams w)
     (trace w ++ sends clock event data (ticks w) (gateways w) ++
      [ConsoleLog "📡 廣播 ${event} 給 ${count} 個閘道器"
         [JStr event; JNum (Z.of_nat (JsMap.size (gateways w)))]])
     (ticks w + JsMap.size (gateways w))).
Proof.
  intros Hok. rewrite broadcastToGateways_any. by rewrite deliveries_open.
Qed.

(** C1, as the code has it: when the connection of every registered
    gateway is open, [broadcastToGateways] sends one message to every
    registered gateway, in the order of the registry; each message is the
    payload with [timestamp] set to a clock reading and [fromCloud] set to
    [true], its other properties kept.  The number of recipients goes to
    the log; the call itself returns [undefined], not the count. *)
Theorem C1_broadcast_fan_out event data w :
  Forall (λ g, closed (Gateway.socket g) = false) (JsMap.values (gateways w)) →
  let w' := exec (broadcastToGateways clock closed event data) w in
  result (broadcastToGateways clock closed event data) w = Returns JUndefined ∧
  gateways w' = gateways w ∧
  trace w' =
    trace w ++ sends clock event data (ticks w) (gateways w) ++
    [ConsoleLog "📡 廣播 ${event} 給 ${count} 個閘道器"
       [JStr event; JNum (Z.of_nat (JsMap.size (gateways w)))]] ∧
  sent_to (sends clock event data (ticks w) (gateways w)) =
    Gateway.socket <$> JsMap.values (gateways w) ∧
  length (sends clock event data (ticks w) (gateways w)) = JsMap.size (gateways w) ∧
  (∀ t, lookup_prop (augment data t) "timestamp" = JNum t ∧
        lookup_prop (augment data t) "fromCloud" = JBool true ∧
        (∀ name, name ≠ "timestamp" → name ≠ "fromCloud" →
           lookup_prop (augment data t) name = lookup_prop (JObj (spread data)) name)).
Proof.
  intros Hok w'. subst w'. unfold exec, result.
  rewrite broadcastToGateways_run by done. simpl.
  split; [done|]. split; [done|]. split; [done|].
  split; [apply sent_to_sends|]. split; [apply length_sends | apply augment_props].
Qed.

(** C2: a send on a closed connection is skipped and nothing else is
    affected by it.  Whichever connections are closed, the loop of
    [broadcastToGateways] goes through the whole registry, the call
    returns to its caller without an exception, the messages that go out
    are those of the registered gateways with an open connection, in the
    order of the registry, each such gateway gets the augmented payload,
    and the count in the log is the size of the registry. *)
Theorem C2_closed_connection_skipped event data w :
  let w' := exec (broadcastToGateways clock closed event data) w in
  result (broadcastToGateways clock closed event data) w = Returns JUndefined ∧
  trace w' =
    trace w ++ deliveries clock closed event data (ticks w) (gateways w) ++
    [ConsoleLog "📡 廣播 ${event} 給 ${count} 個閘道器"
       [JStr event; JNum (Z.of_nat (JsMap.size (gateways w)))]] ∧
  sent_to (trace w') =
    sent_to (trace w) ++
    filter (λ s, closed s = false) (Gateway.socket <$> JsMap.values (gateways w)) ∧
  (∀ g, g ∈ JsMap.values (gateways w) → closed (Gateway.socket g) = false →
     ∃ t, SocketEmit (Gateway.socket g) event (augment data t) ∈ trace w') ∧
  gateways w' = gateways w ∧
  rtmpStreams w' = rtmpStreams w.
Proof.
  intros w'. subst w'. unfold exec, result.
  rewrite broadcastToGateways_any. simpl.
  split; [done|]. split; [done|]. split; [|split; [|done]].
  - rewrite !sent_to_app, sent_to_deliveries. simpl. by rewrite app_nil_r.
  - intros g Hin Hopen.
    destruct (deliveries_reach event data (ticks w) (gateways w) g Hin Hopen) as [t Ht].
    exists t. apply elem_of_app. right. apply elem_of_app. by left.
Qed.

(** *** Runs: what every handler keeps *)

Create HintDb keeps discriminated.

Lemma keeps_ret {A} (a : A) : keeps_gateways (ret a).
Proof. by intros w. Qed.

Lemma keeps_throw {A} (e : exn) : keeps_gateways (@throw A e).
Proof. by intros w. Qed.

Lemma keeps_bind {A B} (m : M A) (k : A → M B) :
  keeps_gateways m → (∀ a, keeps_gateways (k a)) → keeps_gateways (bind m k).
Proof.
  intros Hm Hk w. specialize (Hm w). unfold exec, bind in *.
  destruct (m w) as [[a|e] w1]; simpl in *; [|done].
  rewrite <- Hm. apply Hk.
Qed.

Lemma keeps_read {A} (f : World → A) : keeps_gateways (read f).
Proof. by intros w. Qed.

Lemma keeps_now : keeps_gateways (now clock).
Proof. by intros w. Qed.

Lemma keeps_emit_effect e : keeps_gateways (emit_effect e).
Proof. by intros w. Qed.

Lemma keeps_set_rtmpStreams f : keeps_gateways (set_rtmpStreams f).
Proof. by intros w. Qed.

Lemma keeps_get_prop data name : keeps_gateways (get_prop data name).
Proof. intros w. unfold get_prop. by destruct (nullish data). Qed.

Lemma keeps_socket_emit sock event payload :
  keeps_gateways (socket_emit closed sock event payload).
Proof. intros w. unfold socket_emit. by destruct (closed sock). Qed.

Lemma keeps_forEach {V A} (m : JsMap.t V) (f : V → A → M A) (acc : A) :
  (∀ v a, keeps_gateways (f v a)) → keeps_gateways (forEach m f acc).
Proof.
  intros Hf. revert acc. induction m as [|[k v] m IH]; intros acc; simpl.
  - apply keeps_ret.
  - apply keeps_bind; auto.
Qed.

Lemma keeps_interpolate v : keeps_gateways (interpolate v).
Proof. intros w. unfold interpolate. by destruct (converts v). Qed.

Hint Resolve keeps_ret keeps_throw keeps_read keeps_now keeps_emit_effect
  keeps_set_rtmpStreams keeps_get_prop keeps_socket_emit keeps_interpolate : keeps.

Ltac keeps :=
  repeat first
    [ progress auto with keeps
    | apply keeps_forEach; intros
    | apply keeps_bind; [|intros] ].

Lemma keeps_broadcastToGateways event data :
  keeps_gateways (broadcastToGateways clock closed event data).
Proof.
  unfold broadcastToGateways, send_to_gateway, console_log. keeps.
Qed.

(** Only registration, heartbeat and disconnect write the registry. *)
Lemma handle_keeps e :
  writes_registry e = false → keeps_gateways (handle clock closed e).
Proof.
  destruct e; simpl; try done; intros _;
    unfold gateway_response, cloud_message, request_devices, device_control,
      stream_control, prePublish, donePublish, console_log, io_emit;
    pose proof keeps_broadcastToGateways; keeps.
Qed.

(** A property of all entries that registration establishes and the
    field updates of a heartbeat keep is kept by every handler. *)
Lemma handle_entries (P : Gateway.t → Prop) e w :
  (∀ sock data,
     e = RegisterGateway sock data → nullish data = false →
     P (Gateway.mk sock (js_or (lookup_prop data "siteName") (JStr unnamed_site))
          (clock (ticks w)) sock
          (js_or (lookup_prop data "deviceCount") (JNum 0))
          (clock (S (ticks w))))) →
  (∀ sock data g,
     e = Heartbeat sock data → P g →
     P (Gateway.with_lastHeartbeat (clock (ticks w)) g) ∧
     (is_undefined (lookup_prop data "deviceCount") = false →
      P (Gateway.with_deviceCount (lookup_prop data "deviceCount") g))) →
  Forall P (JsMap.values (gateways w)) →
  Forall P (JsMap.values (gateways (exec (handle clock closed e) w))).
Proof.
  intros Hreg Hbeat Hall.
  destruct e as [sock data| | | | | |sock data|sock| |];
    try (by rewrite handle_keeps); unfold handle.
  - destruct (nullish data) eqn:Hdata.
    + unfold exec. by rewrite register_gateway_throws.
    + destruct (register_gateway_gateways sock data w Hdata) as [-> _].
      apply values_set_Forall; [by eapply Hreg | done].
  - destruct (JsMap.get sock (gateways w)) as [g|] eqn:Hget; unfold exec.
    + rewrite (heartbeat_present sock data g w Hget). simpl.
      destruct (is_undefined _) eqn:Hdc.
      * apply values_mutate_Forall; [|done]. intros v Hv. by eapply Hbeat.
      * apply values_mutate_Forall.
        { intros v Hv. by eapply (Hbeat sock data v). }
        apply values_mutate_Forall; [|done]. intros v Hv. by eapply Hbeat.
    + by rewrite heartbeat_absent.
  - destruct (disconnect_gateways sock w) as [-> | ->]; [|done].
    by apply values_delete_Forall.
Qed.

(** Every handler keeps the keys of the registry distinct. *)
Lemma handle_wf e w :
  JsMap.wf (gateways w) → JsMap.wf (gateways (exec (handle clock closed e) w)).
Proof.
  intros Hwf.
  destruct e as [sock data| | | | | |sock data|sock| |];
    try (by rewrite handle_keeps); unfold handle.
  - destruct (nullish data) eqn:Hdata.
    + unfold exec. by rewrite register_gateway_throws.
    + destruct (register_gateway_gateways sock data w Hdata) as [-> _].
      by apply wf_set.
  - destruct (JsMap.get sock (gateways w)) as [g|] eqn:Hget; unfold exec.
    + rewrite (heartbeat_present sock data g w Hget). simpl.
      destruct (is_undefined _); by repeat apply wf_mutate.
    + by rewrite heartbeat_absent.
  - destruct (disconnect_gateways sock w) as [-> | ->]; [|done].
    by apply wf_delete.
Qed.

Lemma run_wf es w :
  JsMap.wf (gateways w) → JsMap.wf (gateways (run clock closed es w)).
Proof.
  revert w. induction es as [|e es IH]; intros w Hwf; [done|].
  simpl. by apply IH, handle_wf.
Qed.

Lemma nonneg_int_spec v : nonneg_int v = true ↔ ∃ n, v = JNum n ∧ (0 ≤ n)%Z.
Proof.
  destruct v; simpl; try (split; [done | by intros (n & ? & _)]).
  rewrite Z.leb_le. split; [by eauto | by intros (n' & [= ->] & ?)].
Qed.

Lemma js_or_count v :
  is_undefined v || nonneg_int v = true → nonneg_int (js_or v (JNum 0)) = true.
Proof.
  destruct v as [| | |n| | |]; simpl; try done. unfold js_or. simpl.
  by destruct (n =? 0)%Z.
Qed.

Lemma run_counts es w :
  Forall (λ e, supplies_counts_ok e = true) es →
  Forall (λ g, nonneg_int (Gateway.deviceCount g) = true) (JsMap.values (gateways w)) →
  Forall (λ g, nonneg_int (Gateway.deviceCount g) = true)
    (JsMap.values (gateways (run clock closed es w))).
Proof.
  intros Hes. revert w. induction Hes as [|e es He Hes IH]; intros w Hw; [done|].
  simpl. apply IH. apply handle_entries; [| |done].
  - intros sock data -> _. simpl in *. by apply js_or_count.
  - intros sock data g -> Hg. simpl in *. split; [done|].
    intros Hdc. unfold count_supplied_ok in He. by rewrite Hdc in He.
Qed.

(** C9, as the code has it: the handlers store the supplied [deviceCount]
    as it comes.  After any run of events from the initial state in which
    every registration and heartbeat supplies either no [deviceCount] or an
    integer that is at least 0, every entry's [deviceCount] is an integer
    that is at least 0. *)
Theorem C9_device_counts es :
  Forall (λ e, supplies_counts_ok e = true) es →
  Forall (λ g, ∃ n, Gateway.deviceCount g = JNum n ∧ (0 ≤ n)%Z)
    (JsMap.values (gateways (run clock closed es init))).
Proof.
  intros Hes. eapply Forall_impl.
  - apply run_counts; [done | by constructor].
  - intros g. apply nonneg_int_spec.
Qed.

End ServerFacts.

(** * The theorems at sample inputs *)

Lemma C1_witness :
  Forall (λ g, Sample.reliable (Gateway.socket g) = false)
    (JsMap.values (gateways Sample.two_gateways)) ∧
  result (broadcastToGateways Sample.clock Sample.reliable "cloud-message" Sample.message)
    Sample.two_gateways = Returns JUndefined ∧
  sent_to (sends Sample.clock "cloud-message" Sample.message
             (ticks Sample.two_gateways) (gateways Sample.two_gateways)) =
    ["gw-A"; "gw-B"].
Proof.
  assert (Hok : Forall (λ g, Sample.reliable (Gateway.socket g) = false)
                  (JsMap.values (gateways Sample.two_gateways)))
    by (repeat constructor).
  split; [exact Hok|].
  pose proof (C1_broadcast_fan_out Sample.clock Sample.reliable "cloud-message"
                Sample.message Sample.two_gateways Hok) as (Hres & _ & _ & Hsent & _).
  split; [exact Hres | exact Hsent].
Defined.

(** C1 as stated fails: with two gateways registered and both connections
    open, the call does not return the number of recipients. *)
Lemma C1_count_not_returned :
  JsMap.size (gateways Sample.two_gateways) = 2 ∧
  result (broadcastToGateways Sample.clock Sample.reliable "cloud-message" Sample.message)
    Sample.two_gateways ≠ Returns (JNum 2).
Proof. split; [reflexivity | vm_compute; discriminate]. Qed.

Lemma C2_witness :
  JsMap.keys (gateways Sample.two_gateways) = ["gw-A"; "gw-B"] ∧
  Sample.dead_A "gw-A" = true ∧
  result (broadcastToGateways Sample.clock Sample.dead_A "cloud-message" Sample.message)
    Sample.two_gateways = Returns JUndefined ∧
  sent_to (trace (exec (broadcastToGateways Sample.clock Sample.dead_A
                          "cloud-message" Sample.message)
                    Sample.two_gateways)) = ["gw-B"].
Proof.
  split; [reflexivity|]. split; [reflexivity|].
  pose proof (C2_closed_connection_skipped Sample.clock Sample.dead_A "cloud-message"
                Sample.message Sample.two_gateways) as (Hres & _ & Hsent & _).
  split; [exact Hres | exact Hsent].
Defined.

Lemma C3_witness :
  JsMap.get (streamKeyOf "live/cam-07") (rtmpStreams init) = None ∧
  rtmpStreams (exec (donePublish Sample.clock "s1" "live/cam-07") init) = rtmpStreams init.
Proof.
  split; [reflexivity|].
  exact (proj1 (proj2 (C3_stop_without_start Sample.clock "s1" "live/cam-07" init eq_refl))).
Defined.

(** C3 as stated fails: a stop for a key the (empty) tracker does not hold
    emits a [stream-ended] event. *)
Lemma C3_stop_without_start_emits :
  JsMap.get (streamKeyOf "live/cam-07") (rtmpStreams init) = None ∧
  io_events "stream-ended"
    (trace (exec (donePublish Sample.clock "s1" "live/cam-07") init)) =
  [JObj [("streamKey", JStr "cam-07"); ("timestamp", JNum 1700000000000)]].
Proof. split; reflexivity. Qed.

Lemma C5_witness :
  rtmpStreams init = [] ∧
  JsMap.size
    (rtmpStreams (exec (donePublish Sample.clock "s1" "live/cam-07")
                    (exec (prePublish Sample.clock "s1" "live/cam-07") init))) = 0.
Proof.
  split; [reflexivity|].
  exact (C5_start_then_stop Sample.clock "s1" "s1" "live/cam-07" init eq_refl).
Defined.

Lemma C6_witness :
  JsMap.wf (gateways init) ∧
  nullish Sample.siteA = false ∧
  JsMap.get "gw-A"
    (gateways (exec (register_gateway Sample.clock "gw-A" Sample.siteA)
                 (exec (register_gateway Sample.clock "gw-A" Sample.nameless) init))) =
  Some (Gateway.mk "gw-A" (JStr "SiteA") 1700000000002 "gw-A" (JNum 3) 1700000000003).
Proof.
  assert (Hwf : JsMap.wf (gateways init)) by apply NoDup_nil_2.
  split; [exact Hwf|]. split; [reflexivity|].
  destruct (proj1 (C6_register_twice Sample.clock "gw-A" Sample.nameless Sample.siteA
                     init Hwf eq_refl))
    as (g & _ & -> & Hid & Hsock & Hname & Hcount & Hat & Hbeat).
  destruct g. simpl in *. by subst.
Defined.

(** C6 as stated fails: after a registration with a payload and a second
    one on the same connection with the payload [null], the second call
    has thrown and the entry still holds what the first call stored. *)
Lemma C6_second_call_without_payload :
  result (register_gateway Sample.clock "gw-A" JNull)
    (exec (register_gateway Sample.clock "gw-A" Sample.siteA) init) =
    Throws (TypeError "siteName") ∧
  JsMap.get "gw-A"
    (gateways (exec (register_gateway Sample.clock "gw-A" JNull)
                 (exec (register_gateway Sample.clock "gw-A" Sample.siteA) init))) =
  Some (Gateway.mk "gw-A" (JStr "SiteA") 1700000000000 "gw-A" (JNum 3) 1700000000001).
Proof. split; reflexivity. Qed.



Lemma C8_witness :
  JsMap.get "gw-C" (gateways Sample.two_gateways) = None ∧
  heartbeat Sample.clock "gw-C" Sample.beat5 Sample.two_gateways =
    (Returns tt, Sample.two_gateways) ∧
  JsMap.get "gw-A" (gateways Sample.two_gateways) = Some Sample.entryA ∧
  JsMap.keys (gateways (exec (heartbeat Sample.clock "gw-A" Sample.beat5)
                          Sample.two_gateways)) =
    JsMap.keys (gateways Sample.two_gateways).
Proof.
  split; [reflexivity|]. split.
  - exact (proj1 (C8_heartbeat_frame Sample.clock "gw-C" Sample.beat5 Sample.two_gateways)
             eq_refl).
  - split; [reflexivity|].
    exact (proj1 (proj2 (proj2 (proj2 (proj2 (C8_heartbeat_frame Sample.clock "gw-A"
                                                Sample.beat5 Sample.two_gateways)
                                                Sample.entryA eq_refl))))).
Defined.

Lemma C9_witness :
  Forall (λ e, supplies_counts_ok e = true)
    [RegisterGateway "gw-A" Sample.siteA; Heartbeat "gw-A" Sample.beat5;
     RegisterGateway "gw-B" Sample.nameless; Disconnect "gw-C"] ∧
  Forall (λ g, ∃ n, Gateway.deviceCount g = JNum n ∧ (0 ≤ n)%Z)
    (JsMap.values
       (gateways (run Sample.clock Sample.reliable
                    [RegisterGateway "gw-A" Sample.siteA; Heartbeat "gw-A" Sample.beat5;
                     RegisterGateway "gw-B" Sample.nameless; Disconnect "gw-C"] init))).
Proof.
  assert (Hes : Forall (λ e, supplies_counts_ok e = true)
                  [RegisterGateway "gw-A" Sample.siteA; Heartbeat "gw-A" Sample.beat5;
                   RegisterGateway "gw-B" Sample.nameless; Disconnect "gw-C"])
    by (repeat constructor).
  split; [exact Hes|].
  exact (C9_device_counts Sample.clock Sample.reliable _ Hes).
Defined.

(** C9 as stated fails: a registration that supplies the integer -1 as its
    [deviceCount] leaves an entry whose [deviceCount] is -1. *)
Lemma C9_negative_count_stored :
  Gateway.deviceCount <$>
    JsMap.get "gw-A"
      (gateways (run Sample.clock Sample.reliable
                   [RegisterGateway "gw-A" Sample.minus_one] init)) =
  Some (JNum (-1)).
Proof. reflexivity. Qed.

Lemma C10_witness :
  nullish Sample.nameless = false ∧
  lookup_prop Sample.nameless "siteName" = JUndefined ∧
  Gateway.siteName <$>
    JsMap.get "gw-C"
      (gateways (exec (register_gateway Sample.clock "gw-C" Sample.nameless) init)) =
  Some (JStr unnamed_site).
Proof.
  split; [reflexivity|]. split; [reflexivity|].
  destruct (proj1 (C10_register_without_siteName Sample.clock "gw-C" Sample.nameless
                     init eq_refl eq_refl)) as (g & -> & <-).
  reflexivity.
Defined.

(** * Beyond the claims *)

(** ** Stream keys of composed paths *)

Lemma split_app (sep : ascii) (s1 s2 : string) :
  split sep (s1 +:+ String sep s2) = split sep s1 ++ split sep s2.
Proof.
  induction s1 as [|c s1 IH]; simpl.
  - by rewrite decide_True.
  - destruct (decide (c = sep)) as [->|Hne]; [by rewrite IH|].
    rewrite IH. destruct (split_snoc sep s1) as (segs & key & -> & _).
    by destruct segs.
Qed.

Lemma split_plain (sep : ascii) (s : string) :
  contains sep s = false → split sep s = [s].
Proof.
  induction s as [|c s IH]; simpl; [done|].
  intros [Hc Hs]%orb_false_elim. apply bool_decide_eq_false in Hc.
  rewrite decide_False by done. by rewrite IH.
Qed.

(** X7: whatever precedes the last [/] of a path plays no part in the
    stream key: a path made of any prefix, a [/] and a [/]-free name has
    that name as its key, and a [/]-free path is its own key. *)
Theorem X7_stream_key_of_path (pre key : string) :
  contains "/" key = false →
  streamKeyOf (pre +:+ "/" +:+ key) = key ∧ streamKeyOf key = key.
Proof.
  intros Hkey. unfold streamKeyOf, pop. split.
  - change (pre +:+ "/" +:+ key) with (pre +:+ String "/" key).
    rewrite split_app, (split_plain "/" key Hkey). by rewrite last_snoc.
  - by rewrite (split_plain "/" key Hkey).
Qed.

Section MoreFacts.

Context (clock : nat → Z) (closed : string → bool).

Ltac run_steps :=
  unfold exec, result, bind, interpolate, console_log, io_emit, emit_effect,
    set_rtmpStreams, set_gateways, read, now, ret, throw;
  simpl; rewrite <- ?app_assoc; simpl.

(** ** Two publishers under one key *)

(** X6: when two stream paths end in the same segment, the second publish
    start replaces the tracking of the first (the tracker grows by nothing
    and holds the second session under the key), and the stop of the first
    publisher then removes the entry although the second still publishes. *)
Theorem X6_key_collision id1 id2 path1 path2 w :
  streamKeyOf path1 = streamKeyOf path2 →
  let w1 := exec (prePublish clock id1 path1) w in
  let w2 := exec (prePublish clock id2 path2) w1 in
  let w3 := exec (donePublish clock id1 path1) w2 in
  JsMap.get (streamKeyOf path1) (rtmpStreams w1) =
    Some (Stream.mk id1 path1 (clock (ticks w)) true) ∧
  JsMap.get (streamKeyOf path2) (rtmpStreams w2) =
    Some (Stream.mk id2 path2 (clock (ticks w1)) true) ∧
  JsMap.size (rtmpStreams w2) = JsMap.size (rtmpStreams w1) ∧
  JsMap.get (streamKeyOf path2) (rtmpStreams w3) = None.
Proof.
  intros Hkey w1 w2 w3. subst w1 w2 w3. unfold exec.
  rewrite !prePublish_run, donePublish_run. simpl. rewrite Hkey.
  split; [apply get_set_eq|]. split; [apply get_set_eq|].
  split; [apply size_set_twice | apply get_delete_eq].
Qed.

(** ** Events without a payload *)

(** X2: when the peer sends [register-gateway], [gateway-response],
    [cloud-message], [device-control] or [stream-control] with no payload
    ([undefined] or [null]), the handler throws a TypeError at its first
    read of a field, before it has stored, logged or sent anything. *)
Theorem X2_missing_payload sock data w :
  nullish data = true →
  register_gateway clock sock data w = (Throws (TypeError "siteName"), w) ∧
  gateway_response data w = (Throws (TypeError "siteName"), w) ∧
  cloud_message clock closed data w = (Throws (TypeError "message"), w) ∧
  device_control clock closed data w = (Throws (TypeError "command"), w) ∧
  stream_control clock closed data w = (Throws (TypeError "action"), w).
Proof.
  intros Hdata.
  unfold register_gateway, gateway_response, cloud_message, device_control,
    stream_control, get_prop.
  rewrite Hdata. by run_steps.
Qed.

(** ** The operator events *)

Lemma relayed_run e name data w :
  relayed e = Some (name, data) →
  nullish data = false ∨ name = "request-devices" →
  Forall (λ g, closed (Gateway.socket g) = false) (JsMap.values (gateways w)) →
  ∃ text args,
    handle clock closed e w =
    (Returns tt,
     mkWorld (gateways w) (rtmpStreams w)
       (trace w ++ ConsoleLog text args ::
        sends clock name data (ticks w) (gateways w) ++
        [ConsoleLog "📡 廣播 ${event} 給 ${count} 個閘道器"
           [JStr name; JNum (Z.of_nat (JsMap.size (gateways w)))]])
       (ticks w + JsMap.size (gateways w))).
Proof.
  intros Hrel Hdata Hok.
  assert (Hrun : ∀ text args,
    broadcastToGateways clock closed name data
      (mkWorld (gateways w) (rtmpStreams w) (trace w ++ [ConsoleLog text args]) (ticks w)) =
    (Returns JUndefined,
     mkWorld (gateways w) (rtmpStreams w)
       (trace w ++ ConsoleLog text args ::
        sends clock name data (ticks w) (gateways w) ++
        [ConsoleLog "📡 廣播 ${event} 給 ${count} 個閘道器"
           [JStr name; JNum (Z.of_nat (JsMap.size (gateways w)))]])
       (ticks w + JsMap.size (gateways w)))).
  { intros text args. rewrite broadcastToGateways_run by done. simpl.
    by rewrite <- app_assoc. }
  destruct e; simpl in Hrel; try done; injection Hrel as <- <-; simpl;
    unfold cloud_message, request_devices, device_control, stream_control, get_prop;
    try (destruct Hdata as [->|Hname]; [|done]);
    eexists _, _; unfold bind, ret, console_log, emit_effect; simpl;
    by rewrite Hrun.
Qed.

(** X1: [cloud-message], [device-control] and [stream-control] with a
    payload, and [request-devices] with or without one, pass the payload
    on under the same event name: when the connection of every registered
    gateway is open, the handler logs the event, sends the augmented
    payload once to every registered gateway in the order of the registry,
    logs the number of recipients and returns; the registry and the
    tracker stay as they were. *)
Theorem X1_relay_fan_out e name data w :
  relayed e = Some (name, data) →
  nullish data = false ∨ name = "request-devices" →
  Forall (λ g, closed (Gateway.socket g) = false) (JsMap.values (gateways w)) →
  let w' := exec (handle clock closed e) w in
  result (handle clock closed e) w = Returns tt ∧
  (∃ text args,
     trace w' =
       trace w ++ ConsoleLog text args ::
       sends clock name data (ticks w) (gateways w) ++
       [ConsoleLog "📡 廣播 ${event} 給 ${count} 個閘道器"
          [JStr name; JNum (Z.of_nat (JsMap.size (gateways w)))]]) ∧
  sent_to (trace w') = sent_to (trace w) ++ (Gateway.socket <$> JsMap.values (gateways w)) ∧
  gateways w' = gateways w ∧
  rtmpStreams w' = rtmpStreams w.
Proof.
  intros Hrel Hdata Hok w'. subst w'. unfold exec, result.
  destruct (relayed_run e name data w Hrel Hdata Hok) as (text & args & ->). simpl.
  split; [done|]. split; [by eexists _, _|]. split; [|done].
  rewrite sent_to_app. f_equal.
  change (ConsoleLog text args :: ?l) with ([ConsoleLog text args] ++ l).
  rewrite !sent_to_app, sent_to_sends. simpl. by rewrite app_nil_r.
Qed.

(** ** What a handler leaves alone *)

Lemma preserves_ret {X A} (f : World → X) (a : A) : preserves f (ret a).
Proof. by intros w. Qed.

Lemma preserves_throw {X A} (f : World → X) (e : exn) : preserves f (@throw A e).
Proof. by intros w. Qed.

Lemma preserves_read {X A} (f : World → X) (g : World → A) : preserves f (read g).
Proof. by intros w. Qed.

Lemma preserves_bind {X A B} (f : World → X) (m : M A) (k : A → M B) :
  preserves f m → (∀ a, preserves f (k a)) → preserves f (bind m k).
Proof.
  intros Hm Hk w. specialize (Hm w). unfold exec, bind in *.
  destruct (m w) as [[a|e] w1]; simpl in *; [|done].
  rewrite <- Hm. apply Hk.
Qed.

Lemma preserves_get_prop {X} (f : World → X) data name :
  preserves f (get_prop data name).
Proof. intros w. unfold get_prop. by destruct (nullish data). Qed.

Lemma preserves_forEach {X V A} (f : World → X) (m : JsMap.t V)
    (callback : V → A → M A) (acc : A) :
  (∀ v a, preserves f (callback v a)) → preserves f (forEach m callback acc).
Proof.
  intros Hf. revert acc. induction m as [|[k v] m IH]; intros acc; simpl.
  - apply preserves_ret.
  - apply preserves_bind; auto.
Qed.

Lemma io_events_app event tr1 tr2 :
  io_events event (tr1 ++ tr2) = io_events event tr1 ++ io_events event tr2.
Proof. unfold io_events. apply omap_app. Qed.

Ltac preserves_struct :=
  repeat first
    [ apply preserves_ret
    | apply preserves_throw
    | apply preserves_read
    | apply preserves_get_prop
    | apply preserves_forEach; intros
    | apply preserves_bind; [|intros]
    | match goal with
      | |- preserves _ (if ?b then _ else _) => destruct b
      | |- preserves _ (match ?x with Some _ => _ | None => _ end) => destruct x
      end ].

Ltac unfold_handlers :=
  unfold register_gateway, gateway_response, cloud_message, request_devices,
    device_control, stream_control, heartbeat, disconnect, prePublish, donePublish,
    broadcastToGateways, send_to_gateway, socket_emit, interpolate, console_log,
    io_emit.

(** Only the two publish handlers write the tracker. *)
Lemma handle_keeps_tracker e :
  writes_tracker e = false → preserves rtmpStreams (handle clock closed e).
Proof.
  destruct e; simpl; try done; intros _; unfold_handlers; preserves_struct;
    by intros w0.
Qed.

(** A handler broadcasts to all sockets under its own event name only. *)
Lemma handle_keeps_emitted event e :
  announces e ≠ Some event → preserves (emitted event) (handle clock closed e).
Proof.
  intros Hev.
  assert (Hlog : ∀ text args, preserves (emitted event) (emit_effect (ConsoleLog text args))).
  { intros text args w0. unfold emitted. simpl. rewrite io_events_app. simpl.
    by rewrite app_nil_r. }
  assert (Hsend : ∀ sock ev p,
            preserves (emitted event) (emit_effect (SocketEmit sock ev p))).
  { intros sock ev p w0. unfold emitted. simpl. rewrite io_events_app. simpl.
    by rewrite app_nil_r. }
  assert (Hio : ∀ ev p, Some ev ≠ Some event →
            preserves (emitted event) (emit_effect (IoEmit ev p))).
  { intros ev p Hne w0. unfold emitted. simpl. rewrite io_events_app. simpl.
    rewrite decide_False by congruence. by rewrite app_nil_r. }
  destruct e; simpl in *; unfold_handlers; preserves_struct;
    solve [ by intros w0 | apply Hlog | apply Hsend | by apply Hio ].
Qed.

(** X3: the registry and the tracker have separate writers.  Whatever the
    payload and whether or not the handler throws, an event other than
    [register-gateway], [heartbeat] and [disconnect] leaves the registry as
    it was, and an event other than a publish start or stop leaves the
    stream tracker as it was. *)
Theorem X3_separate_writers e w :
  (writes_registry e = false →
     gateways (exec (handle clock closed e) w) = gateways w) ∧
  (writes_tracker e = false →
     rtmpStreams (exec (handle clock closed e) w) = rtmpStreams w).
Proof.
  split; intros He.
  - by apply handle_keeps.
  - by apply handle_keeps_tracker.
Qed.

(** ** Invariants of every run *)

Lemma entries_set_Forall {V} (P : string * V → Prop) k v (m : JsMap.t V) :
  P (k, v) → Forall P m → Forall P (JsMap.set k v m).
Proof.
  intros Hv. induction m as [|[k0 v0] m IH]; simpl.
  - intros _. by constructor.
  - intros [H0 Hall]%Forall_cons. destruct (decide (k0 = k)); constructor; auto.
Qed.

Lemma entries_mutate_Forall {V} (P : string * V → Prop) (f : V → V) k (m : JsMap.t V) :
  (∀ v, P (k, v) → P (k, f v)) → Forall P m → Forall P (JsMap.mutate f k m).
Proof.
  intros Hf. induction m as [|[k0 v0] m IH]; simpl; [done|].
  intros [H0 Hall]%Forall_cons. destruct (decide (k0 = k)) as [->|]; constructor; auto.
Qed.

Lemma entries_delete_Forall {V} (P : string * V → Prop) k (m : JsMap.t V) :
  Forall P m → Forall P (JsMap.delete k m).
Proof.
  unfold JsMap.delete. induction m as [|[k0 v0] m IH]; [done|].
  intros [H0 Hall]%Forall_cons. rewrite filter_cons.
  destruct (decide ((k0, v0).1 ≠ k)); [constructor|]; auto.
Qed.

Lemma run_invariant (I : World → Prop) :
  (∀ e w, I w → I (exec (handle clock closed e) w)) →
  ∀ es w, I w → I (run clock closed es w).
Proof.
  intros Hstep es. induction es as [|e es IH]; intros w Hw; [done|].
  simpl. by apply IH, Hstep.
Qed.

Lemma handle_keyed e w :
  Forall (λ entry, Gateway.id entry.2 = entry.1 ∧ Gateway.socket entry.2 = entry.1)
    (gateways w) →
  Forall (λ entry, Gateway.id entry.2 = entry.1 ∧ Gateway.socket entry.2 = entry.1)
    (gateways (exec (handle clock closed e) w)).
Proof.
  intros Hall.
  destruct e as [sock data| | | | | |sock data|sock| |];
    try (by rewrite handle_keeps); unfold handle.
  - destruct (nullish data) eqn:Hdata.
    + unfold exec. by rewrite register_gateway_throws.
    + destruct (register_gateway_gateways clock sock data w Hdata) as [-> _].
      by apply entries_set_Forall.
  - destruct (JsMap.get sock (gateways w)) as [g|] eqn:Hget; unfold exec.
    + rewrite (heartbeat_present clock sock data g w Hget). simpl.
      destruct (is_undefined _); by repeat apply entries_mutate_Forall.
    + by rewrite heartbeat_absent.
  - destruct (disconnect_gateways sock w) as [-> | ->]; [|done].
    by apply entries_delete_Forall.
Qed.

(** X4: after any run of events from the initial state, whatever the
    payloads and the state of the connections, the registry holds each
    connection id at most once, and the entry stored under a connection id
    carries that id both as its [id] and as the connection it sends on. *)
Theorem X4_registry_keyed_by_connection es :
  let w := run clock closed es init in
  JsMap.wf (gateways w) ∧
  Forall (λ entry, Gateway.id entry.2 = entry.1 ∧ Gateway.socket entry.2 = entry.1)
    (gateways w).
Proof.
  simpl. split.
  - apply run_wf. apply NoDup_nil_2.
  - apply (run_invariant (λ w, Forall _ (gateways w))); [apply handle_keyed | constructor].
Qed.

Lemma handle_tracked e w :
  JsMap.wf (rtmpStreams w) ∧
  Forall (λ entry, Stream.active entry.2 = true ∧
                   entry.1 = streamKeyOf (Stream.streamPath entry.2)) (rtmpStreams w) →
  let w' := exec (handle clock closed e) w in
  JsMap.wf (rtmpStreams w') ∧
  Forall (λ entry, Stream.active entry.2 = true ∧
                   entry.1 = streamKeyOf (Stream.streamPath entry.2)) (rtmpStreams w').
Proof.
  intros [Hwf Hall] w'. subst w'.
  destruct e as [| | | | | | | |id StreamPath|id StreamPath];
    try (by rewrite handle_keeps_tracker); simpl; unfold exec.
  - split; [by apply wf_set|]. by apply entries_set_Forall.
  - split; [by apply wf_delete|]. by apply entries_delete_Forall.
Qed.

(** X5: after any run of events from the initial state, [/api/streams]
    lists no stream key twice, and every stream it lists is marked active
    and is listed under the last segment of its own path, a key without
    [/]. *)
Theorem X5_listed_streams es :
  let listed := api_streams (run clock closed es init) in
  NoDup (StreamInfo.streamKey <$> listed) ∧
  Forall (λ s, StreamInfo.active s = true ∧
               StreamInfo.streamKey s = streamKeyOf (StreamInfo.streamPath s) ∧
               contains "/" (StreamInfo.streamKey s) = false) listed.
Proof.
  simpl.
  destruct (run_invariant
    (λ w, JsMap.wf (rtmpStreams w) ∧
          Forall (λ entry, Stream.active entry.2 = true ∧
                           entry.1 = streamKeyOf (Stream.streamPath entry.2))
            (rtmpStreams w))
    (λ e w, handle_tracked e w) es init) as [Hwf Hall].
  { split; [apply NoDup_nil_2 | constructor]. }
  unfold api_streams. split.
  - rewrite <- list_fmap_compose. exact Hwf.
  - rewrite Forall_fmap. eapply Forall_impl; [exact Hall|].
    intros [key value] [Hactive Hkey]. simpl in *. split; [done|]. split; [done|].
    rewrite Hkey. apply streamKeyOf_last_segment.
Qed.

Lemma truthy_js_or v d : truthy d = true → truthy (js_or v d) = true.
Proof. intros Hd. unfold js_or. by destruct (truthy v) eqn:Hv. Qed.

(** X10: after any run of events from the initial state, [/api/gateways]
    reports as [count] the number of gateways it lists, which is the size
    of the registry; every gateway it lists has a truthy site name (never
    [undefined] or the empty string), and a device count that is truthy or
    the number 0. *)
Theorem X10_gateways_report es :
  let w := run clock closed es init in
  let report := api_gateways w in
  GatewaysReport.count report = JsMap.size (gateways w) ∧
  length (GatewaysReport.gateways report) = GatewaysReport.count report ∧
  Forall (λ i, truthy (GatewayInfo.siteName i) = true ∧
               (truthy (GatewayInfo.deviceCount i) = true ∨
                GatewayInfo.deviceCount i = JNum 0))
    (GatewaysReport.gateways report).
Proof.
  simpl. unfold JsMap.values, JsMap.size. rewrite !length_fmap.
  split; [done|]. split; [done|]. rewrite Forall_fmap.
  eapply Forall_impl.
  - apply (run_invariant
             (λ w, Forall (λ g, truthy (Gateway.siteName g) = true)
                     (JsMap.values (gateways w)))); [|constructor].
    intros e w Hw. apply handle_entries; [| |done].
    + intros sock data _ _. simpl. by apply truthy_js_or.
    + intros sock data g _ Hg. by simpl.
  - intros g Hg. simpl. split; [done|]. unfold js_or.
    destruct (truthy (Gateway.deviceCount g)) eqn:Hdc; auto.
Qed.

(** ** The order of the registry *)

Lemma keys_delete {V} k (m : JsMap.t V) :
  JsMap.keys (JsMap.delete k m) = filter (λ k', k' ≠ k) (JsMap.keys m).
Proof.
  unfold JsMap.keys, JsMap.delete. induction m as [|[k0 v0] m IH]; [done|].
  csimpl. rewrite !filter_cons. simpl.
  destruct (decide (k0 ≠ k)); csimpl; by rewrite IH.
Qed.

Lemma has_keys {V} k (m : JsMap.t V) :
  JsMap.has k m = true ↔ k ∈ JsMap.keys m.
Proof.
  unfold JsMap.has. destruct (JsMap.get k m) as [v|] eqn:Hget.
  - split; [intros _; by eapply get_Some_key | done].
  - apply get_None in Hget. split; [done | by intros ?].
Qed.

(** X8: the registry, and with it every broadcast, is ordered by first
    registration.  A registration with a payload on a connection that is
    already registered keeps that connection's place; on a new connection
    it puts the gateway last.  A disconnect of a connection that is not
    registered, or whose stored site name converts to a string, takes that
    connection out and keeps the order of the others. *)
Theorem X8_registry_order sock data w :
  (nullish data = false →
     JsMap.keys (gateways (exec (register_gateway clock sock data) w)) =
       if JsMap.has sock (gateways w) then JsMap.keys (gateways w)
       else JsMap.keys (gateways w) ++ [sock]) ∧
  ((∀ g, JsMap.get sock (gateways w) = Some g → converts (Gateway.siteName g) = true) →
     JsMap.keys (gateways (exec (disconnect sock) w)) =
       filter (λ k, k ≠ sock) (JsMap.keys (gateways w))).
Proof.
  split.
  - intros Hdata. destruct (register_gateway_gateways clock sock data w Hdata) as [-> _].
    destruct (JsMap.has sock (gateways w)) eqn:Hhas.
    + apply keys_set_present. by apply has_keys.
    + apply keys_set_absent. intros Hin%has_keys. congruence.
  - intros Hname. rewrite <- keys_delete. unfold exec.
    destruct (JsMap.get sock (gateways w)) as [g|] eqn:Hget.
    + by rewrite (disconnect_present sock g w Hget) by by apply Hname.
    + rewrite disconnect_absent by done. simpl. by rewrite delete_absent.
Qed.

(** ** Lifecycle events against the maps *)

Lemma size_set_le {V} k v (m : JsMap.t V) :
  JsMap.size (JsMap.set k v m) ≤ S (JsMap.size m).
Proof.
  destruct (decide (k ∈ JsMap.keys m)).
  - rewrite size_set_present by done. lia.
  - by rewrite size_set_absent.
Qed.

Lemma size_delete_le {V} k (m : JsMap.t V) :
  JsMap.size (JsMap.delete k m) ≤ JsMap.size m.
Proof. apply length_filter. Qed.

Lemma size_delete_present {V} k v (m : JsMap.t V) :
  JsMap.get k m = Some v → S (JsMap.size (JsMap.delete k m)) ≤ JsMap.size m.
Proof.
  intros Hget. apply (length_filter_lt _ m (k, v)); [|by intros H].
  induction m as [|[k0 v0] m IH]; [done|]. simpl in Hget.
  destruct (decide (k0 = k)) as [->|].
  - injection Hget as ->. apply list_elem_of_here.
  - apply list_elem_of_further. by apply IH.
Qed.

Lemma size_mutate {V} (f : V → V) k (m : JsMap.t V) :
  JsMap.size (JsMap.mutate f k m) = JsMap.size m.
Proof.
  unfold JsMap.size. rewrite <- (length_fmap fst (JsMap.mutate f k m)), <- (length_fmap fst m).
  change (length (JsMap.keys (JsMap.mutate f k m)) = length (JsMap.keys m)).
  by rewrite keys_mutate.
Qed.

Lemma handle_gateway_accounting e w :
  logs_cleanly e = true →
  JsMap.size (gateways w) + length (emitted "gateway-disconnected" w)
    ≤ length (emitted "gateway-connected" w) →
  let w' := exec (handle clock closed e) w in
  JsMap.size (gateways w') + length (emitted "gateway-disconnected" w')
    ≤ length (emitted "gateway-connected" w').
Proof.
  intros Hclean Hw w'. subst w'.
  destruct (decide (writes_registry e = false)) as [He|He].
  { rewrite handle_keeps by done.
    rewrite !handle_keeps_emitted by (by destruct e). done. }
  destruct e as [sock data| | | | | |sock data|sock| |]; try done; clear He.
  - rewrite (handle_keeps_emitted "gateway-disconnected") by done. simpl in *.
    destruct (nullish data) eqn:Hdata; unfold exec, emitted.
    + by rewrite register_gateway_throws.
    + rewrite register_gateway_run by done. simpl.
      rewrite io_events_app, length_app. simpl.
      pose proof (size_set_le sock
        (Gateway.mk sock (js_or (lookup_prop data "siteName") (JStr unnamed_site))
           (clock (ticks w)) sock (js_or (lookup_prop data "deviceCount") (JNum 0))
           (clock (S (ticks w)))) (gateways w)).
      unfold emitted in Hw. lia.
  - rewrite !handle_keeps_emitted by done. simpl.
    destruct (JsMap.get sock (gateways w)) as [g|] eqn:Hget; unfold exec.
    + rewrite (heartbeat_present clock sock data g w Hget). simpl.
      destruct (is_undefined _); by rewrite !size_mutate.
    + by rewrite heartbeat_absent.
  - rewrite (handle_keeps_emitted "gateway-connected") by done. simpl.
    destruct (JsMap.get sock (gateways w)) as [g|] eqn:Hget; unfold exec, emitted.
    + destruct (converts (Gateway.siteName g)) eqn:Hname.
      * rewrite (disconnect_present sock g w Hget Hname). simpl.
        rewrite io_events_app, length_app. simpl.
        pose proof (size_delete_present sock g (gateways w) Hget).
        unfold emitted in Hw. lia.
      * by rewrite (disconnect_stuck sock g w Hget Hname).
    + by rewrite disconnect_absent.
Qed.

Lemma handle_stream_accounting e w :
  JsMap.size (rtmpStreams w) ≤ length (emitted "stream-started" w) →
  let w' := exec (handle clock closed e) w in
  JsMap.size (rtmpStreams w') ≤ length (emitted "stream-started" w').
Proof.
  intros Hw w'. subst w'.
  destruct (decide (writes_tracker e = false)) as [He|He].
  { rewrite handle_keeps_tracker by done.
    rewrite handle_keeps_emitted by (by destruct e). done. }
  destruct e as [| | | | | | | |id StreamPath|id StreamPath]; try done; clear He.
  - unfold exec, emitted, handle. rewrite prePublish_run. simpl.
    rewrite io_events_app, length_app. simpl.
    pose proof (size_set_le (streamKeyOf StreamPath)
      (Stream.mk id StreamPath (clock (ticks w)) true) (rtmpStreams w)).
    unfold emitted in Hw. lia.
  - rewrite handle_keeps_emitted by done. unfold exec, handle.
    rewrite donePublish_run. simpl.
    pose proof (size_delete_le (streamKeyOf StreamPath) (rtmpStreams w)). lia.
Qed.

Lemma run_gateway_accounting es w :
  Forall (λ e, logs_cleanly e = true) es →
  JsMap.size (gateways w) + length (emitted "gateway-disconnected" w)
    ≤ length (emitted "gateway-connected" w) →
  JsMap.size (gateways (run clock closed es w))
  + length (emitted "gateway-disconnected" (run clock closed es w))
    ≤ length (emitted "gateway-connected" (run clock closed es w)).
Proof.
  intros Hes. revert w. induction Hes as [|e es He Hes IH]; intros w Hw; [done|].
  simpl. apply IH. by apply handle_gateway_accounting.
Qed.

(** X9: after any run of events from the initial state, the
    [stream-started] events broadcast so far are at least as many as the
    streams now tracked.  When in addition every registration of the run
    carried a site name that converts to a string (as every string,
    number, boolean, [null] and absent name does), the [gateway-connected]
    events are at least as many as the [gateway-disconnected] events plus
    the gateways now registered: an observer that counts connects minus
    disconnects does not then under-count the registry. *)
Theorem X9_lifecycle_accounting es :
  let w := run clock closed es init in
  (Forall (λ e, logs_cleanly e = true) es →
     JsMap.size (gateways w) + length (emitted "gateway-disconnected" w)
       ≤ length (emitted "gateway-connected" w)) ∧
  JsMap.size (rtmpStreams w) ≤ length (emitted "stream-started" w).
Proof.
  simpl. split.
  - intros Hes. by apply run_gateway_accounting.
  - apply (run_invariant
      (λ w, JsMap.size (rtmpStreams w) ≤ length (emitted "stream-started" w))); [|done].
    intros e w. apply handle_stream_accounting.
Qed.

(** ** Round trips *)

Lemma delete_set_absent {V} k v (m : JsMap.t V) :
  JsMap.get k m = None → JsMap.delete k (JsMap.set k v m) = m.
Proof.
  unfold JsMap.delete. induction m as [|[k0 v0] m IH]; simpl.
  - intros _. by rewrite filter_cons_False by (simpl; auto).
  - destruct (decide (k0 = k)) as [->|Hne]; [done|]. intros Hget.
    rewrite filter_cons_True by done. by rewrite IH.
Qed.

Lemma converts_js_or v d :
  converts v = true → converts d = true → converts (js_or v d) = true.
Proof. intros Hv Hd. unfold js_or. by destruct (truthy v). Qed.

(** X11: a registration on a connection that is not yet registered, with a
    payload whose site name converts to a string, followed by the
    disconnect of that connection, gives back the registry exactly as it
    was.  The [gateway-disconnected] event of the disconnect carries the
    stored site name, that is the placeholder when the payload had none,
    whereas the [gateway-connected] event of the registration carried the
    payload's own [siteName]. *)
Theorem X11_register_then_disconnect sock data w :
  nullish data = false →
  converts (lookup_prop data "siteName") = true →
  JsMap.get sock (gateways w) = None →
  let w1 := exec (register_gateway clock sock data) w in
  let w2 := exec (disconnect sock) w1 in
  gateways w2 = gateways w ∧
  emitted "gateway-connected" w2 =
    emitted "gateway-connected" w ++
    [JObj [("siteName", lookup_prop data "siteName");
           ("deviceCount", js_or (lookup_prop data "deviceCount") (JNum 0))]] ∧
  emitted "gateway-disconnected" w2 =
    emitted "gateway-disconnected" w ++
    [JObj [("siteName", js_or (lookup_prop data "siteName") (JStr unnamed_site))]].
Proof.
  intros Hdata Hname Hget w1 w2. subst w1 w2. unfold exec, emitted.
  rewrite register_gateway_run by done. simpl.
  erewrite disconnect_present;
    [|simpl; apply get_set_eq | simpl; by apply converts_js_or].
  simpl. split; [by apply delete_set_absent|].
  rewrite <- !app_assoc, !io_events_app. by simpl.
Qed.

(** X12: a publish start for a path whose key the tracker does not hold,
    followed by the publish stop for the same path under any session id,
    gives back the tracker exactly as it was, whatever else it tracks. *)
Theorem X12_start_then_stop_restores id id' StreamPath w :
  JsMap.get (streamKeyOf StreamPath) (rtmpStreams w) = None →
  rtmpStreams (exec (donePublish clock id' StreamPath)
                 (exec (prePublish clock id StreamPath) w)) = rtmpStreams w.
Proof.
  intros Hget. unfold exec. rewrite prePublish_run, donePublish_run. simpl.
  by apply delete_set_absent.
Qed.

End MoreFacts.

(** ** The further theorems at sample inputs *)

Lemma X1_witness :
  relayed (RequestDevices "op-1" JUndefined) = Some ("request-devices", JUndefined) ∧
  Forall (λ g, Sample.reliable (Gateway.socket g) = false)
    (JsMap.values (gateways Sample.two_gateways)) ∧
  sent_to (trace (exec (handle Sample.clock Sample.reliable
                          (RequestDevices "op-1" JUndefined))
                    Sample.two_gateways)) = ["gw-A"; "gw-B"].
Proof.
  assert (Hok : Forall (λ g, Sample.reliable (Gateway.socket g) = false)
                  (JsMap.values (gateways Sample.two_gateways)))
    by (repeat constructor).
  split; [reflexivity|]. split; [exact Hok|].
  exact (proj1 (proj2 (proj2 (X1_relay_fan_out Sample.clock Sample.reliable
                                (RequestDevices "op-1" JUndefined) "request-devices"
                                JUndefined Sample.two_gateways eq_refl
                                (or_intror eq_refl) Hok)))).
Defined.

Lemma X2_witness :
  nullish JNull = true ∧
  register_gateway Sample.clock "gw-C" JNull Sample.two_gateways =
    (Throws (TypeError "siteName"), Sample.two_gateways).
Proof.
  split; [reflexivity|].
  exact (proj1 (X2_missing_payload Sample.clock Sample.reliable "gw-C" JNull
                  Sample.two_gateways eq_refl)).
Defined.

Lemma X3_witness :
  writes_registry (CloudMessage "op-1" Sample.message) = false ∧
  gateways (exec (handle Sample.clock Sample.dead_A (CloudMessage "op-1" Sample.message))
              Sample.two_gateways) = gateways Sample.two_gateways ∧
  writes_tracker (Disconnect "gw-A") = false ∧
  rtmpStreams (exec (handle Sample.clock Sample.dead_A (Disconnect "gw-A"))
                 Sample.two_gateways) = rtmpStreams Sample.two_gateways.
Proof.
  split; [reflexivity|]. split.
  - exact (proj1 (X3_separate_writers Sample.clock Sample.dead_A
                    (CloudMessage "op-1" Sample.message) Sample.two_gateways) eq_refl).
  - split; [reflexivity|].
    exact (proj2 (X3_separate_writers Sample.clock Sample.dead_A
                    (Disconnect "gw-A") Sample.two_gateways) eq_refl).
Defined.

Lemma X6_witness :
  streamKeyOf "live/cam-1" = streamKeyOf "backup/cam-1" ∧
  JsMap.get (streamKeyOf "backup/cam-1")
    (rtmpStreams
       (exec (donePublish Sample.clock "s1" "live/cam-1")
          (exec (prePublish Sample.clock "s2" "backup/cam-1")
             (exec (prePublish Sample.clock "s1" "live/cam-1") init)))) = None.
Proof.
  split; [reflexivity|].
  exact (proj2 (proj2 (proj2 (X6_key_collision Sample.clock "s1" "s2" "live/cam-1"
                                "backup/cam-1" init eq_refl)))).
Defined.

Lemma X7_witness :
  contains "/" "cam-07" = false ∧
  streamKeyOf ("rtmp://hub:1935/live" +:+ "/" +:+ "cam-07") = "cam-07".
Proof.
  split; [reflexivity|].
  exact (proj1 (X7_stream_key_of_path "rtmp://hub:1935/live" "cam-07" eq_refl)).
Defined.

Lemma X8_witness :
  nullish Sample.nameless = false ∧
  JsMap.keys (gateways (exec (register_gateway Sample.clock "gw-A" Sample.nameless)
                          Sample.two_gateways)) = ["gw-A"; "gw-B"] ∧
  JsMap.keys (gateways (exec (register_gateway Sample.clock "gw-C" Sample.nameless)
                          Sample.two_gateways)) = ["gw-A"; "gw-B"; "gw-C"] ∧
  JsMap.keys (gateways (exec (disconnect "gw-A") Sample.two_gateways)) = ["gw-B"].
Proof.
  split; [reflexivity|]. split; [|split].
  - exact (proj1 (X8_registry_order Sample.clock "gw-A" Sample.nameless
                    Sample.two_gateways) eq_refl).
  - exact (proj1 (X8_registry_order Sample.clock "gw-C" Sample.nameless
                    Sample.two_gateways) eq_refl).
  - apply (proj2 (X8_registry_order Sample.clock "gw-A" Sample.nameless
                    Sample.two_gateways)).
    intros g [= <-]. reflexivity.
Defined.

Lemma X9_witness :
  Forall (λ e, logs_cleanly e = true)
    [RegisterGateway "gw-A" Sample.siteA; RegisterGateway "gw-A" Sample.nameless;
     Disconnect "gw-A"; Disconnect "gw-A"] ∧
  JsMap.size
    (gateways (run Sample.clock Sample.reliable
                 [RegisterGateway "gw-A" Sample.siteA;
                  RegisterGateway "gw-A" Sample.nameless;
                  Disconnect "gw-A"; Disconnect "gw-A"] init))
  + length
      (emitted "gateway-disconnected"
         (run Sample.clock Sample.reliable
            [RegisterGateway "gw-A" Sample.siteA;
             RegisterGateway "gw-A" Sample.nameless;
             Disconnect "gw-A"; Disconnect "gw-A"] init))
  ≤ length
      (emitted "gateway-connected"
         (run Sample.clock Sample.reliable
            [RegisterGateway "gw-A" Sample.siteA;
             RegisterGateway "gw-A" Sample.nameless;
             Disconnect "gw-A"; Disconnect "gw-A"] init)).
Proof.
  assert (Hes : Forall (λ e, logs_cleanly e = true)
                  [RegisterGateway "gw-A" Sample.siteA;
                   RegisterGateway "gw-A" Sample.nameless;
                   Disconnect "gw-A"; Disconnect "gw-A"])
    by (repeat constructor).
  split; [exact Hes|].
  exact (proj1 (X9_lifecycle_accounting Sample.clock Sample.reliable _) Hes).
Defined.

Lemma X11_witness :
  nullish Sample.nameless = false ∧
  converts (lookup_prop Sample.nameless "siteName") = true ∧
  JsMap.get "gw-C" (gateways Sample.two_gateways) = None ∧
  gateways (exec (disconnect "gw-C")
              (exec (register_gateway Sample.clock "gw-C" Sample.nameless)
                 Sample.two_gateways)) = gateways Sample.two_gateways.
Proof.
  split; [reflexivity|]. split; [reflexivity|]. split; [reflexivity|].
  exact (proj1 (X11_register_then_disconnect Sample.clock "gw-C" Sample.nameless
                  Sample.two_gateways eq_refl eq_refl eq_refl)).
Defined.

Lemma X12_witness :
  JsMap.get (streamKeyOf "live/cam-2")
    (rtmpStreams (exec (prePublish Sample.clock "s1" "live/cam-1") init)) = None ∧
  rtmpStreams
    (exec (donePublish Sample.clock "s3" "live/cam-2")
       (exec (prePublish Sample.clock "s2" "live/cam-2")
          (exec (prePublish Sample.clock "s1" "live/cam-1") init))) =
  rtmpStreams (exec (prePublish Sample.clock "s1" "live/cam-1") init).
Proof.
  split; [reflexivity|].
  exact (X12_start_then_stop_restores Sample.clock "s2" "s3" "live/cam-2"
           (exec (prePublish Sample.clock "s1" "live/cam-1") init) eq_refl).
Defined.
